(** * terraform-provider-imagetest: the k3s harness resource

    A shallow embedding of [internal/provider/harness_k3s_resource.go]
    ([HarnessK3sResource.Create]) and of the common harness resource
    ([HarnessResource.ModifyPlan], [HarnessResource.ShouldSkip]), with the
    properties of the harness orchestration core stated over it.

    Go maps are [gmap]s; a [range] over a map visits the entries in an
    order chosen by the runtime, which the embedding takes from [go_range].
    The Terraform plugin framework, the k3s harness package and the
    operating system are external collaborators: their answers are the
    fields of [Extern] and of the request records. *)

From Stdlib Require Import ZArith.
From stdpp Require Import gmap strings list fin_maps.

Open Scope string_scope.
Open Scope list_scope.

(* ================================================================== *)
(** * Framework values *)
(* ================================================================== *)

(** A framework value ([types.String], [types.Bool], [types.Object], ...)
    is null, unknown or known. *)
Inductive TfValue (A : Type) : Type :=
  | TfNull
  | TfUnknown
  | TfKnown (a : A).
Arguments TfNull {A}.
Arguments TfUnknown {A}.
Arguments TfKnown {A} a.

Definition IsNull {A} (v : TfValue A) : bool :=
  match v with TfNull => true | _ => false end.

Definition ValueString (v : TfValue string) : string :=
  match v with TfKnown s => s | _ => "" end.

Definition ValueBool (v : TfValue bool) : bool :=
  match v with TfKnown b => b | _ => false end.

Definition BoolValue (b : bool) : TfValue bool := TfKnown b.

Abbreviation types_String := (TfValue string).
Abbreviation types_Bool := (TfValue bool).
Abbreviation types_List := (TfValue (list (TfValue string))).
Abbreviation types_Map := (TfValue (gmap string (TfValue string))).

(** Go's [(T, error)] results. *)
Inductive result (A : Type) : Type :=
  | Ok (a : A)
  | Err (e : string).
Arguments Ok {A} a.
Arguments Err {A} e.

(** [time.Duration]: nanoseconds. *)
Abbreviation Duration := Z.
Definition Minute : Duration := 60000000000%Z.
Definition defaultHarnessK3sCreateTimeout : Duration := (5 * Minute)%Z.

(* ------------------------------------------------------------------ *)
(** ** Diagnostics *)

Inductive Severity := SeverityError | SeverityWarning.

Record Diagnostic := Diag {
  diag_severity : Severity;
  diag_summary : string;
  diag_detail : string
}.

Abbreviation Diagnostics := (list Diagnostic).

Global Instance Severity_eq_dec : EqDecision Severity.
Proof. solve_decision. Defined.
Global Instance Diagnostic_eq_dec : EqDecision Diagnostic.
Proof. solve_decision. Defined.

Definition is_error (d : Diagnostic) : bool :=
  match diag_severity d with SeverityError => true | SeverityWarning => false end.

Definition HasError (ds : Diagnostics) : bool := existsb is_error ds.

Definition Errors (ds : Diagnostics) : Diagnostics := List.filter is_error ds.

(** [Diagnostics.Append] keeps the collection free of duplicates. *)
Definition Append (ds new : Diagnostics) : Diagnostics :=
  foldl (fun acc d => if bool_decide (d ∈ acc) then acc else acc ++ [d]) ds new.

Definition AddError (summary detail : string) (ds : Diagnostics) : Diagnostics :=
  Append ds [Diag SeverityError summary detail].

Definition AddWarning (summary detail : string) (ds : Diagnostics) : Diagnostics :=
  Append ds [Diag SeverityWarning summary detail].

(* ================================================================== *)
(** * Data model of the resource *)
(* ================================================================== *)

Record InventoryDataSourceModel := {
  Seed : types_String
}.

Record ContainerResourceModelNetwork := {
  Network_Name : types_String
}.

Record ContainerResourceMountModel := {
  Mount_Source : types_String;
  Mount_Destination : types_String
}.

Record RegistryResourceAuthModel := {
  Auth_Username : types_String;
  Auth_Password : types_String;
  Auth_Auth : types_String
}.

Record RegistryResourceTlsModel := {
  Tls_CertFile : types_String;
  Tls_KeyFile : types_String;
  Tls_CaFile : types_String
}.

Record RegistryResourceMirrorModel := {
  Mirror_Endpoints : types_List
}.

(** The three blocks are pointers in the source: [None] is [nil]. *)
Record RegistryResourceModel := {
  Registry_Auth : option RegistryResourceAuthModel;
  Registry_Tls : option RegistryResourceTlsModel;
  Registry_Mirror : option RegistryResourceMirrorModel
}.

Record HarnessK3sSandboxResourceModel := {
  Sandbox_Image : types_String;
  Sandbox_Privileged : types_Bool;
  Sandbox_Envs : types_Map;
  Sandbox_Mounts : list ContainerResourceMountModel;
  Sandbox_Networks : gmap string ContainerResourceModelNetwork
}.

Abbreviation types_Object := (TfValue HarnessK3sSandboxResourceModel).
Abbreviation timeouts_Value := (TfValue string).

(** [Registries] and [Networks] are Go maps that may be [nil] ([None]). *)
Record HarnessK3sResourceModel := {
  Id : types_String;
  Name : types_String;
  Inventory : InventoryDataSourceModel;
  Skipped : types_Bool;
  Image : types_String;
  DisableCni : types_Bool;
  DisableTraefik : types_Bool;
  DisableMetricsServer : types_Bool;
  Registries : option (gmap string RegistryResourceModel);
  Networks : option (gmap string ContainerResourceModelNetwork);
  Sandbox : types_Object;
  Timeouts : timeouts_Value
}.

Definition set_Skipped (v : types_Bool) (d : HarnessK3sResourceModel) :=
  {| Id := Id d; Name := Name d; Inventory := Inventory d; Skipped := v;
     Image := Image d; DisableCni := DisableCni d;
     DisableTraefik := DisableTraefik d;
     DisableMetricsServer := DisableMetricsServer d;
     Registries := Registries d; Networks := Networks d;
     Sandbox := Sandbox d; Timeouts := Timeouts d |}.

Definition set_Registries (v : option (gmap string RegistryResourceModel))
    (d : HarnessK3sResourceModel) :=
  {| Id := Id d; Name := Name d; Inventory := Inventory d; Skipped := Skipped d;
     Image := Image d; DisableCni := DisableCni d;
     DisableTraefik := DisableTraefik d;
     DisableMetricsServer := DisableMetricsServer d;
     Registries := v; Networks := Networks d;
     Sandbox := Sandbox d; Timeouts := Timeouts d |}.

(* ------------------------------------------------------------------ *)
(** ** Provider-global configuration *)

(** Modelled from the spec: the declaration of the provider-global k3s
    block lives in another file of the provider. Section 4.5 gives the
    Config Builder "global registries map, global networks list";
    [pc_Networks] is the sequence the source's [range pc.Networks]
    visits. *)
Record ProviderHarnessK3sModel := {
  pc_Registries : gmap string RegistryResourceModel;
  pc_Networks : list ContainerResourceModelNetwork
}.

Record ProviderHarnessModel := {
  K3s : option ProviderHarnessK3sModel
}.

Record ImageTestProviderModel := {
  Harnesses : option ProviderHarnessModel
}.

(* ================================================================== *)
(** * The k3s harness package, as Create sees it *)
(* ================================================================== *)

Record name_Reference := { ref_name : string }.

Inductive mount_Type := TypeBind.

Record mount_Mount := {
  mount_Type_ : mount_Type;
  mount_Source : string;
  mount_Target : string
}.

Inductive k3s_Option :=
  | WithCniDisabled (b : bool)
  | WithTraefikDisabled (b : bool)
  | WithMetricsServerDisabled (b : bool)
  | WithImageRef (ref : name_Reference)
  | WithSandboxImageRef (ref : name_Reference)
  | WithSandboxMounts (m : mount_Mount)
  | WithSandboxNetworks (n : string)
  | WithSandboxEnv (envs : gmap string string)
  | WithAuthFromKeychain (rname : string)
  | WithAuthFromStatic (rname username password auth : string)
  | WithRegistryMirror (rname : string) (endpoints : list string)
  | WithNetworks (networks : list string).

(** The orchestration handle [k3s.New] returns. *)
Record k3s_harness := {
  harness_id : string;
  harness_opts : list k3s_Option
}.

(* ================================================================== *)
(** * Inventory and provider store *)
(* ================================================================== *)

Record Feature := {
  Labels : gmap string string
}.

(** Modelled from the spec: package [internal/inventory], which the
    provider only calls. Section 3: an Inventory is identified by its
    seed and owns a set of harness identifiers and, for each harness,
    its features; it is created lazily on first reference to a seed.
    [inv_fault] is the error the backing store answers with, if any. *)
Record InventoryStore := {
  inv_entries : gmap string (gmap string (list Feature));
  inv_fault : option string
}.

Definition inventory_of (st : InventoryStore) (seed : string)
    : gmap string (list Feature) :=
  default ∅ (inv_entries st !! seed).

(** Modelled from the spec: [AddHarness] (section 4.2) is an idempotent
    insert, [added = false] if the harness is already present, and fails
    only on a backing-store error. *)
Definition AddHarness (st : InventoryStore) (seed id : string)
    : bool * option string * InventoryStore :=
  match inv_fault st with
  | Some e => (false, Some e, st)
  | None =>
      match inventory_of st seed !! id with
      | Some _ => (false, None, st)
      | None =>
          (true, None,
           {| inv_entries :=
                <[seed := <[id := []]> (inventory_of st seed)]> (inv_entries st);
              inv_fault := inv_fault st |})
      end
  end.

(** Modelled from the spec: [GetFeatures] (section 4.2) returns the
    features registered against the harness, the empty slice if none,
    and fails on a backing-store error. *)
Definition GetFeatures (st : InventoryStore) (seed id : string)
    : result (list Feature) :=
  match inv_fault st with
  | Some e => Err e
  | None => Ok (default [] (inventory_of st seed !! id))
  end.

(** [ProviderStore]. Modelled from the spec: the Runtime Registry
    [harnesses] (section 4.4) is a last-writer-wins map from identifier
    to handle, [Set] is [insert]. *)
Record ProviderStore := {
  labels : gmap string string;
  inventory : InventoryStore;
  harnesses : gmap string k3s_harness;
  providerResourceData : ImageTestProviderModel
}.

Definition set_inventory (i : InventoryStore) (s : ProviderStore) :=
  {| labels := labels s; inventory := i; harnesses := harnesses s;
     providerResourceData := providerResourceData s |}.

Definition harnesses_Set (id : string) (h : k3s_harness) (s : ProviderStore) :=
  {| labels := labels s; inventory := inventory s;
     harnesses := <[id := h]> (harnesses s);
     providerResourceData := providerResourceData s |}.

(* ================================================================== *)
(** * External collaborators *)
(* ================================================================== *)

(** What the framework, the k3s package, the runtime and the operating
    system answer. [go_range site i m] is the order in which the [i]-th
    execution of the [range] statement at [site] visits the map [m]. *)
Record Extern := {
  go_range : forall V, string -> nat -> gmap string V -> list (string * V);
  store_Encode : string -> result string;
  Plan_SetAttribute_id : string -> Diagnostics;
  Timeouts_Create : timeouts_Value -> Duration -> Duration * Diagnostics;
  name_ParseReference : string -> result name_Reference;
  filepath_Abs : string -> result string;
  Object_As : types_Object -> Diagnostics * HarnessK3sSandboxResourceModel;
  Map_ElementsAs : types_Map -> Diagnostics * gmap string string;
  List_ElementsAs : types_List -> Diagnostics * list string;
  Sprint_Diagnostics : Diagnostics -> string;
  k3s_New : string -> list k3s_Option -> result k3s_harness;
  harness_Setup : k3s_harness -> Duration -> option string;
  State_Set : HarnessK3sResourceModel -> Diagnostics
}.
Arguments go_range e {V} site i m.

(** A [range] visits every entry of the map exactly once. *)
Definition range_ok (E : Extern) : Prop :=
  forall V site i (m : gmap string V), go_range E site i m ≡ₚ map_to_list m.

(* ================================================================== *)
(** * HarnessResource.ModifyPlan *)
(* ================================================================== *)

Record ModifyPlanRequest := {
  mp_State_Raw_IsNull : bool;
  mp_Config_inventory : Diagnostics * InventoryDataSourceModel;
  mp_Config_name : Diagnostics * string
}.

Record ModifyPlanResponse := {
  mp_Diagnostics : Diagnostics;
  mp_Plan_id : option string
}.

(** The identifier of line 80: [fmt.Sprintf("%s-%s", name, invEnc)]. *)
Definition harness_id_of (name invEnc : string) : string :=
  name +:+ "-" +:+ invEnc.

Definition mp_AddError (summary detail : string) (resp : ModifyPlanResponse) :=
  {| mp_Diagnostics := AddError summary detail (mp_Diagnostics resp);
     mp_Plan_id := mp_Plan_id resp |}.

Definition mp_Append (ds : Diagnostics) (resp : ModifyPlanResponse) :=
  {| mp_Diagnostics := Append (mp_Diagnostics resp) ds;
     mp_Plan_id := mp_Plan_id resp |}.

(** The response, the store and the lines logged. *)
Definition ModifyPlan (E : Extern) (store : ProviderStore)
    (req : ModifyPlanRequest) (resp : ModifyPlanResponse)
    : ModifyPlanResponse * ProviderStore * list string :=
  if negb (mp_State_Raw_IsNull req) then (resp, store, [])
  else
    let '(diags, inv) := mp_Config_inventory req in
    if HasError diags then
      (mp_AddError "failed to add harness" "retrieving inventory" resp, store, [])
    else
      let '(diags, name) := mp_Config_name req in
      if HasError diags then
        (mp_AddError "failed to add harness" "getting harness name"
           (mp_Append (Errors diags) resp), store, [])
      else
        match store_Encode E (ValueString (Seed inv)) with
        | Err _ =>
            (mp_AddError "failed to add harness" "encoding harness id" resp,
             store, [])
        | Ok invEnc =>
            let id := harness_id_of name invEnc in
            let diag := Plan_SetAttribute_id E id in
            if HasError diag then
              (mp_AddError "failed to set harness id" "..."
                 (mp_Append (Errors diag) resp), store, [])
            else
              let resp := {| mp_Diagnostics := mp_Diagnostics resp;
                             mp_Plan_id := Some id |} in
              let '(added, err, inv') :=
                AddHarness (inventory store) (ValueString (Seed inv)) id in
              let store := set_inventory inv' store in
              let resp :=
                match err with
                | Some e => mp_AddError "failed to add harness" e resp
                | None => resp
                end in
              (resp, store,
               if added
               then ["Harness.ModifyPlan() | harness [" +:+ id
                       +:+ "] added to inventory"]
               else [])
        end.

(* ================================================================== *)
(** * HarnessResource.ShouldSkip *)
(* ================================================================== *)

(** The request, as the accessor calls of the source read it. *)
Record CreateRequest := {
  Plan_Get : Diagnostics * HarnessK3sResourceModel;
  Config_inventory : Diagnostics * InventoryDataSourceModel;
  Plan_id : Diagnostics * string
}.

(** [State] is [None] until [State.Set] succeeds. *)
Record CreateResponse := {
  resp_Diagnostics : Diagnostics;
  State : option HarnessK3sResourceModel
}.

Definition resp_Append (ds : Diagnostics) (resp : CreateResponse) :=
  {| resp_Diagnostics := Append (resp_Diagnostics resp) ds;
     State := State resp |}.

Definition resp_AddError (summary detail : string) (resp : CreateResponse) :=
  {| resp_Diagnostics := AddError summary detail (resp_Diagnostics resp);
     State := State resp |}.

Definition resp_AddWarning (summary detail : string) (resp : CreateResponse) :=
  {| resp_Diagnostics := AddWarning summary detail (resp_Diagnostics resp);
     State := State resp |}.

(** The inner loop (lines 127-134) over the runtime labels in the order
    [order], for one feature: a mismatch sets [skip] and breaks. *)
Fixpoint range_labels (feat : Feature) (order : list (string * string))
    (skip : bool) : bool :=
  match order with
  | [] => skip
  | (pk, pv) :: rest =>
      match Labels feat !! pk with
      | Some fv =>
          if bool_decide (fv ≠ pv) then true
          else range_labels feat rest skip
      | None => range_labels feat rest skip
      end
  end.

(** The outer loop (lines 126-135); [i] counts the features visited. *)
Fixpoint range_feats (E : Extern) (filter : gmap string string) (i : nat)
    (feats : list Feature) (skip : bool) : bool :=
  match feats with
  | [] => skip
  | feat :: rest =>
      range_feats E filter (S i) rest
        (range_labels feat (go_range E "ShouldSkip" i filter) skip)
  end.

Definition ShouldSkip (E : Extern) (store : ProviderStore)
    (req : CreateRequest) (resp : CreateResponse) : bool * CreateResponse :=
  let '(diags, inv) := Config_inventory req in
  if HasError diags then
    (false, resp_AddError "failed to add harness" "retrieving inventory" resp)
  else
    let '(diags, id) := Plan_id req in
    if HasError diags then
      (false, resp_AddError "failed to add harness" "getting harness id"
                (resp_Append (Errors diags) resp))
    else
      match GetFeatures (inventory store) (ValueString (Seed inv)) id with
      | Err e =>
          (false, resp_AddError "failed to get features from harness" e resp)
      | Ok feats =>
          if bool_decide (size (labels store) = 0) then (false, resp)
          else
            let skip := range_feats E (labels store) 0 feats false in
            (skip,
             if skip then
               resp_AddWarning ("skipping harness [" +:+ id +:+ "] creation")
                 "given provider runtime labels do not match feature labels"
                 resp
             else resp)
      end.

(* ================================================================== *)
(** * HarnessK3sResource.Create *)
(* ================================================================== *)

(** What Create does to the outside, in order. *)
Inductive Event :=
  | EvStateSet (data : HarnessK3sResourceModel)
  | EvNew (id : string) (kopts : list k3s_Option)
  | EvRegistrySet (id : string) (h : k3s_harness)
  | EvSetup (h : k3s_harness) (timeout : Duration).

Record World := {
  w_resp : CreateResponse;
  w_store : ProviderStore;
  w_trace : list Event
}.

(** Create is a sequence of steps on the [World], each of which either
    goes on with a value or leaves the function ([return]). *)
Inductive flow (A : Type) : Type :=
  | Next (a : A)
  | Returned.
Arguments Next {A} a.
Arguments Returned {A}.

Definition M (A : Type) : Type := World -> flow A * World.

Global Instance M_ret : MRet M := fun A a w => (Next a, w).

Global Instance M_bind : MBind M := fun A B f m w =>
  match m w with
  | (Next a, w') => f a w'
  | (Returned, w') => (Returned, w')
  end.

Definition return_ {A} : M A := fun w => (Returned, w).

Definition on_resp (f : CreateResponse -> CreateResponse) : M unit :=
  fun w => (Next tt, {| w_resp := f (w_resp w); w_store := w_store w;
                        w_trace := w_trace w |}).

Definition emit (ev : Event) : M unit :=
  fun w => (Next tt, {| w_resp := w_resp w; w_store := w_store w;
                        w_trace := w_trace w ++ [ev] |}).

Definition get_store : M ProviderStore := fun w => (Next (w_store w), w).

Definition append_diags (ds : Diagnostics) : M unit := on_resp (resp_Append ds).

Definition add_error (summary detail : string) : M unit :=
  on_resp (resp_AddError summary detail).

(** [if resp.Diagnostics.HasError() { return }]. *)
Definition return_if_error : M unit := fun w =>
  if HasError (resp_Diagnostics (w_resp w)) then (Returned, w) else (Next tt, w).

(** [resp.Diagnostics.Append(resp.State.Set(ctx, &data)...)]: the state
    is replaced unless the framework reports an error. *)
Definition state_set (E : Extern) (data : HarnessK3sResourceModel) : M unit :=
  emit (EvStateSet data) ;;
  on_resp (fun resp =>
    resp_Append (State_Set E data)
      {| resp_Diagnostics := resp_Diagnostics resp;
         State := if HasError (State_Set E data) then State resp
                  else Some data |}).

(** [r.store.harnesses.Set(id, harness)]. *)
Definition registry_set (id : string) (h : k3s_harness) : M unit := fun w =>
  (Next tt, {| w_resp := w_resp w; w_store := harnesses_Set id h (w_store w);
               w_trace := w_trace w ++ [EvRegistrySet id h] |}).

Definition call_ShouldSkip (E : Extern) (req : CreateRequest) : M bool := fun w =>
  let '(skip, resp) := ShouldSkip E (w_store w) req (w_resp w) in
  (Next skip, {| w_resp := resp; w_store := w_store w; w_trace := w_trace w |}).

(** Lines 235-242: the explicit cluster image. *)
Definition image_option (E : Extern) (data : HarnessK3sResourceModel)
    (kopts : list k3s_Option) : M (list k3s_Option) :=
  if negb (IsNull (Image data)) then
    match name_ParseReference E (ValueString (Image data)) with
    | Err err =>
        add_error "invalid resource input" ("invalid image reference: " +:+ err) ;;
        return_
    | Ok ref => mret (kopts ++ [WithImageRef ref])
    end
  else mret kopts.

(** Lines 260-272: one bind mount per declared mount, the source made
    absolute. *)
Fixpoint sandbox_mounts (E : Extern) (mounts : list ContainerResourceMountModel)
    (kopts : list k3s_Option) : M (list k3s_Option) :=
  match mounts with
  | [] => mret kopts
  | m :: rest =>
      match filepath_Abs E (ValueString (Mount_Source m)) with
      | Err err =>
          add_error "invalid resource input" ("invalid mount source: " +:+ err) ;;
          return_
      | Ok src =>
          sandbox_mounts E rest
            (kopts ++ [WithSandboxMounts
                         {| mount_Type_ := TypeBind; mount_Source := src;
                            mount_Target := ValueString (Mount_Destination m) |}])
      end
  end.

(** Lines 251-258: the sandbox image. *)
Definition sandbox_image_option (E : Extern)
    (sandbox : HarnessK3sSandboxResourceModel) (kopts : list k3s_Option)
    : M (list k3s_Option) :=
  if negb (IsNull (Sandbox_Image sandbox)) then
    match name_ParseReference E (ValueString (Sandbox_Image sandbox)) with
    | Err err =>
        add_error "invalid resource input"
          ("invalid sandbox image reference: " +:+ err) ;;
        return_
    | Ok ref => mret (kopts ++ [WithSandboxImageRef ref])
    end
  else mret kopts.

(** Lines 251-283: the options of a decoded sandbox. *)
Definition sandbox_body (E : Extern) (sandbox : HarnessK3sSandboxResourceModel)
    (kopts : list k3s_Option) : M (list k3s_Option) :=
  kopts ← sandbox_image_option E sandbox kopts ;
  kopts ← sandbox_mounts E (Sandbox_Mounts sandbox) kopts ;
  let kopts :=
    kopts ++ map (fun n => WithSandboxNetworks (ValueString (Network_Name n.2)))
               (go_range E "sandbox.Networks" 0 (Sandbox_Networks sandbox)) in
  let '(diags, envs) := Map_ElementsAs E (Sandbox_Envs sandbox) in
  if HasError diags then
    add_error "invalid resource input"
      ("invalid envs input: " +:+ Sprint_Diagnostics E (Errors diags)) ;;
    return_
  else mret (kopts ++ [WithSandboxEnv envs]).

(** Lines 244-284: the sandbox block. *)
Definition sandbox_options (E : Extern) (data : HarnessK3sResourceModel)
    (kopts : list k3s_Option) : M (list k3s_Option) :=
  if negb (IsNull (Sandbox data)) then
    let '(diags, sandbox) := Object_As E (Sandbox data) in
    append_diags diags ;;
    return_if_error ;;
    sandbox_body E sandbox kopts
  else mret kopts.

(** Lines 291-296: the resource-declared network names. *)
Definition resource_networks (E : Extern) (data : HarnessK3sResourceModel)
    : list string :=
  match Networks data with
  | Some nets =>
      map (fun v => ValueString (Network_Name v.2))
        (go_range E "data.Networks" 0 nets)
  | None => []
  end.

(** Lines 298-299: the provider-global k3s block, if configured. *)
Definition provider_k3s (store : ProviderStore) : option ProviderHarnessK3sModel :=
  match Harnesses (providerResourceData store) with
  | Some hs => K3s hs
  | None => None
  end.

(** Lines 300-302: [registries[k] = v] for every provider-global entry. *)
Definition merge_registries (E : Extern)
    (registries : gmap string RegistryResourceModel)
    (pc : ProviderHarnessK3sModel) : gmap string RegistryResourceModel :=
  foldl (fun regs kv => <[kv.1 := kv.2]> regs) registries
    (go_range E "pc.Registries" 0 (pc_Registries pc)).

(** Lines 304-306: every provider-global network name is appended. *)
Definition append_networks (networks : list string)
    (pc : ProviderHarnessK3sModel) : list string :=
  foldl (fun nets v => nets ++ [ValueString (Network_Name v)]) networks
    (pc_Networks pc).

(** Lines 286-308: the registries and the networks Create goes on with. *)
Definition merged_registries (E : Extern) (store : ProviderStore)
    (data : HarnessK3sResourceModel) : gmap string RegistryResourceModel :=
  let registries := default ∅ (Registries data) in
  match provider_k3s store with
  | Some pc => merge_registries E registries pc
  | None => registries
  end.

Definition assembled_networks (E : Extern) (store : ProviderStore)
    (data : HarnessK3sResourceModel) : list string :=
  let networks := resource_networks E data in
  match provider_k3s store with
  | Some pc => append_networks networks pc
  | None => networks
  end.

(** Lines 311-317: the option an Auth block gives. *)
Definition auth_option (rname : string) (auth : RegistryResourceAuthModel)
    : k3s_Option :=
  if IsNull (Auth_Auth auth) && IsNull (Auth_Password auth)
     && IsNull (Auth_Username auth)
  then WithAuthFromKeychain rname
  else WithAuthFromStatic rname (ValueString (Auth_Username auth))
         (ValueString (Auth_Password auth)) (ValueString (Auth_Auth auth)).

(** Lines 310-327: the options of every registry, in the order visited. *)
Fixpoint registry_options (E : Extern)
    (order : list (string * RegistryResourceModel))
    (kopts : list k3s_Option) : M (list k3s_Option) :=
  match order with
  | [] => mret kopts
  | (rname, rdata) :: rest =>
      let kopts :=
        match Registry_Auth rdata with
        | Some auth => kopts ++ [auth_option rname auth]
        | None => kopts
        end in
      kopts ←
        match Registry_Mirror rdata with
        | Some mirror =>
            let '(diags, endpoints) := List_ElementsAs E (Mirror_Endpoints mirror) in
            if HasError diags then
              add_error "failed to convert mirror endpoints" "..." ;; return_
            else mret (kopts ++ [WithRegistryMirror rname endpoints])
        | None => mret kopts
        end ;
      registry_options E rest kopts
  end.

(** Lines 331-348: construct the handle, register it, run Setup under the
    timeout, persist the state. *)
Definition setup_harness (E : Extern) (data : HarnessK3sResourceModel)
    (timeout : Duration) (kopts : list k3s_Option) : M unit :=
  emit (EvNew (ValueString (Id data)) kopts) ;;
  match k3s_New E (ValueString (Id data)) kopts with
  | Err err => add_error "failed to initialize k3s harness" err ;; return_
  | Ok harness =>
      registry_set (ValueString (Id data)) harness ;;
      emit (EvSetup harness timeout) ;;
      match harness_Setup E harness timeout with
      | Some err => add_error "failed to setup harness" err ;; return_
      | None => state_set E data
      end
  end.

(** Lines 229-233: the three toggles. *)
Definition toggle_options (data : HarnessK3sResourceModel) : list k3s_Option :=
  [WithCniDisabled (ValueBool (DisableCni data));
   WithTraefikDisabled (ValueBool (DisableTraefik data));
   WithMetricsServerDisabled (ValueBool (DisableMetricsServer data))].

(** Lines 229-329: the options handed to [k3s.New]. *)
Definition assemble_options (E : Extern) (data : HarnessK3sResourceModel)
    : M (list k3s_Option) :=
  let kopts := toggle_options data in
  kopts ← image_option E data kopts ;
  kopts ← sandbox_options E data kopts ;
  store ← get_store ;
  let registries := merged_registries E store data in
  let networks := assembled_networks E store data in
  kopts ← registry_options E (go_range E "registries" 0 registries) kopts ;
  mret (kopts ++ [WithNetworks networks]).

(** [registries] aliases [data.Registries] unless that map is nil, so the
    merge of lines 300-302 is visible in [data] afterwards. *)
Definition aliased_data (E : Extern) (store : ProviderStore)
    (data : HarnessK3sResourceModel) : HarnessK3sResourceModel :=
  match Registries data with
  | Some _ => set_Registries (Some (merged_registries E store data)) data
  | None => data
  end.

(** Lines 223-348: Create once the harness is known not to be skipped. *)
Definition create_harness (E : Extern) (data : HarnessK3sResourceModel)
    : M unit :=
  let '(timeout, diags) :=
    Timeouts_Create E (Timeouts data) defaultHarnessK3sCreateTimeout in
  append_diags diags ;;
  kopts ← assemble_options E data ;
  store ← get_store ;
  setup_harness E (aliased_data E store data) timeout kopts.

Definition Create (E : Extern) (req : CreateRequest) : M unit :=
  let '(diags, data) := Plan_Get req in
  append_diags diags ;;
  return_if_error ;;
  skipped ← call_ShouldSkip E req ;
  return_if_error ;;
  let data := set_Skipped (BoolValue skipped) data in
  if ValueBool (Skipped data) then
    state_set E data ;;
    return_
  else create_harness E data.

(** Create on a fresh response: the world it leaves behind. *)
Definition run_Create (E : Extern) (store : ProviderStore) (req : CreateRequest)
    : World :=
  (Create E req {| w_resp := {| resp_Diagnostics := []; State := None |};
                   w_store := store; w_trace := [] |}).2.

(** A feature and a filter entry that disagree. *)
Definition mismatch (filter : gmap string string) (feat : Feature) : Prop :=
  ∃ pk pv fv, filter !! pk = Some pv ∧ Labels feat !! pk = Some fv ∧ fv ≠ pv.

(** A step that touches neither the store, nor the trace, nor the
    persisted state, and that leaves Create only with an error reported. *)
Definition quiet {A} (m : M A) : Prop :=
  ∀ w, w_store (m w).2 = w_store w ∧ w_trace (m w).2 = w_trace w ∧
       State (w_resp (m w).2) = State (w_resp w) ∧
       ((m w).1 = Returned →
        HasError (resp_Diagnostics (w_resp (m w).2)) = true).

Definition with_resp (resp : CreateResponse) (w : World) : World :=
  {| w_resp := resp; w_store := w_store w; w_trace := w_trace w |}.

Definition world_of (store : ProviderStore) (resp : CreateResponse) : World :=
  {| w_resp := resp; w_store := store; w_trace := [] |}.

(** The response Create starts from and the one ShouldSkip is given. *)
Definition fresh_resp : CreateResponse :=
  {| resp_Diagnostics := []; State := None |}.

Definition planned_resp (req : CreateRequest) : CreateResponse :=
  resp_Append (Plan_Get req).1 fresh_resp.

(** The decoded plan with the skip flag filled in (line 216). *)
Definition planned_data (req : CreateRequest) (skipped : bool)
    : HarnessK3sResourceModel :=
  set_Skipped (BoolValue skipped) (Plan_Get req).2.

(** The timeout Setup runs under (lines 223-226). *)
Definition create_timeout (E : Extern) (req : CreateRequest) : Duration :=
  (Timeouts_Create E (Timeouts (Plan_Get req).2)
     defaultHarnessK3sCreateTimeout).1.

(** What the state holds after [State.Set] on [data]. *)
Definition persisted (E : Extern) (data : HarnessK3sResourceModel)
    : option HarnessK3sResourceModel :=
  if HasError (State_Set E data) then None else Some data.

(** Create ended on invalid input: the error is reported, nothing is
    persisted, the store (with the Runtime Registry) is untouched and
    nothing was constructed, registered or set up. *)
Definition aborts_invalid_input (store : ProviderStore) (w : World)
    (detail : string) : Prop :=
  Diag SeverityError "invalid resource input" detail
    ∈ resp_Diagnostics (w_resp w)
  ∧ State (w_resp w) = None
  ∧ w_store w = store
  ∧ w_trace w = [].

(** An image attribute that passes lines 235-242 (or 251-258): it is null
    or it parses. *)
Definition image_accepted (E : Extern) (v : types_String) : Prop :=
  IsNull v = true ∨ ∃ ref, name_ParseReference E (ValueString v) = Ok ref.

(** The sandbox object is there and lines 244-249 decode it to [sandbox]
    with no error reported so far. *)
Definition sandbox_decoded (E : Extern) (data : HarnessK3sResourceModel)
    (sandbox : HarnessK3sSandboxResourceModel) : Prop :=
  IsNull (Sandbox data) = false
  ∧ HasError (Timeouts_Create E (Timeouts data)
                defaultHarnessK3sCreateTimeout).2 = false
  ∧ HasError (Object_As E (Sandbox data)).1 = false
  ∧ (Object_As E (Sandbox data)).2 = sandbox.

(** The world in which the options are assembled: the timeout
    diagnostics are appended, whatever they are. *)
Definition timed_world (E : Extern) (data : HarnessK3sResourceModel)
    (w : World) : World :=
  with_resp
    (resp_Append (Timeouts_Create E (Timeouts data)
                    defaultHarnessK3sCreateTimeout).2 (w_resp w)) w.

(** Every collaborator Create calls after the timeout resolution
    answers without an error. *)
Definition collaborators_succeed (E : Extern) : Prop :=
  (∀ s, ∃ ref, name_ParseReference E s = Ok ref)
  ∧ (∀ p, ∃ abs, filepath_Abs E p = Ok abs)
  ∧ (∀ o, HasError (Object_As E o).1 = false)
  ∧ (∀ m, HasError (Map_ElementsAs E m).1 = false)
  ∧ (∀ l, HasError (List_ElementsAs E l).1 = false)
  ∧ (∀ id kopts, ∃ h, k3s_New E id kopts = Ok h).

(** The reading of Create under which an error from the timeout
    resolution never stops it: not skipped, the timeout resolution
    reports an error, everything after it succeeds, and the handle is
    registered and set up. *)
Definition timeout_error_continues (E : Extern) (store : ProviderStore)
    (req : CreateRequest) : Prop :=
  HasError (Plan_Get req).1 = false →
  (ShouldSkip E store req (planned_resp req)).1 = false →
  HasError (resp_Diagnostics (ShouldSkip E store req (planned_resp req)).2)
    = false →
  HasError (Timeouts_Create E (Timeouts (Plan_Get req).2)
              defaultHarnessK3sCreateTimeout).2 = true →
  collaborators_succeed E →
  ∃ id h t, EvRegistrySet id h ∈ w_trace (run_Create E store req)
            ∧ EvSetup h t ∈ w_trace (run_Create E store req).

(** [kopts] are options the assembly of lines 229-329 arrives at for
    the plan of [req] under [store]. *)
Definition assembled (E : Extern) (store : ProviderStore) (req : CreateRequest)
    (kopts : list k3s_Option) : Prop :=
  ∃ w1 w2, w_store w1 = store ∧
           assemble_options E (planned_data req false) w1 = (Next kopts, w2).

(** A plan that gets as far as the identifier: there is no prior state,
    inventory and name are read, the seed encodes to [enc] and the plan
    accepts the identifier. *)
Definition plannable (E : Extern) (req : ModifyPlanRequest) (enc : string) : Prop :=
  mp_State_Raw_IsNull req = true
  ∧ HasError (mp_Config_inventory req).1 = false
  ∧ HasError (mp_Config_name req).1 = false
  ∧ store_Encode E (ValueString (Seed (mp_Config_inventory req).2)) = Ok enc
  ∧ HasError (Plan_SetAttribute_id E (harness_id_of (mp_Config_name req).2 enc))
    = false.

(** The five ways a Create can end. *)
Inductive Outcome (E : Extern) (store : ProviderStore) (req : CreateRequest)
    (w : World) : Prop :=
  | Out_aborted :
      w_trace w = [] → w_store w = store → State (w_resp w) = None →
      HasError (resp_Diagnostics (w_resp w)) = true →
      Outcome E store req w
  | Out_skipped :
      (ShouldSkip E store req (planned_resp req)).1 = true →
      w_trace w = [EvStateSet (planned_data req true)] →
      w_store w = store →
      State (w_resp w) = persisted E (planned_data req true) →
      Outcome E store req w
  | Out_new_failed (kopts : list k3s_Option) (e : string) :
      let id := ValueString (Id (Plan_Get req).2) in
      assembled E store req kopts →
      k3s_New E id kopts = Err e →
      w_trace w = [EvNew id kopts] → w_store w = store →
      State (w_resp w) = None →
      Diag SeverityError "failed to initialize k3s harness" e
        ∈ resp_Diagnostics (w_resp w) →
      Outcome E store req w
  | Out_setup_failed (kopts : list k3s_Option) (h : k3s_harness) (e : string) :
      let id := ValueString (Id (Plan_Get req).2) in
      let t := create_timeout E req in
      assembled E store req kopts →
      k3s_New E id kopts = Ok h →
      harness_Setup E h t = Some e →
      w_trace w = [EvNew id kopts; EvRegistrySet id h; EvSetup h t] →
      w_store w = harnesses_Set id h store →
      State (w_resp w) = None →
      Diag SeverityError "failed to setup harness" e
        ∈ resp_Diagnostics (w_resp w) →
      Outcome E store req w
  | Out_created (kopts : list k3s_Option) (h : k3s_harness) :
      let id := ValueString (Id (Plan_Get req).2) in
      let t := create_timeout E req in
      let data := aliased_data E store (planned_data req false) in
      assembled E store req kopts →
      k3s_New E id kopts = Ok h →
      harness_Setup E h t = None →
      w_trace w = [EvNew id kopts; EvRegistrySet id h; EvSetup h t;
                   EvStateSet data] →
      w_store w = harnesses_Set id h store →
      State (w_resp w) = persisted E data →
      Outcome E store req w.

(* ================================================================== *)
(** * HarnessResource.Configure *)
(* ================================================================== *)

(** [req.ProviderData], an interface value: nil, a [*ProviderStore]
    (a pointer, which may itself be nil: [None]), or a value of another
    type. An interface holding a nil [*ProviderStore] is not nil. *)
Inductive ProviderData :=
  | ProviderData_nil
  | ProviderData_store (p : option ProviderStore)
  | ProviderData_other.

(** [r.store] is a pointer: [None] until the resource is configured. *)
Record HarnessResource := {
  r_store : option ProviderStore
}.

Definition Configure (r : HarnessResource) (pd : ProviderData)
    (diags : Diagnostics) : HarnessResource * Diagnostics :=
  match pd with
  | ProviderData_nil => (r, diags)
  | ProviderData_other => (r, AddError "invalid provider data" "..." diags)
  | ProviderData_store p => ({| r_store := p |}, diags)
  end.

(* ================================================================== *)
(** * HarnessK3sResource.Read, Update and Delete *)
(* ================================================================== *)

Record ReadRequest := {
  Read_State_Get : Diagnostics * HarnessK3sResourceModel
}.

Record UpdateRequest := {
  Update_Plan_Get : Diagnostics * HarnessK3sResourceModel
}.

Record DeleteRequest := {
  Delete_State_Get : Diagnostics * HarnessK3sResourceModel
}.

(** Lines 351-363. *)
Definition Read (E : Extern) (req : ReadRequest) : M unit :=
  let '(diags, data) := Read_State_Get req in
  append_diags diags ;;
  return_if_error ;;
  state_set E data.

(** Lines 365-377. *)
Definition Update (E : Extern) (req : UpdateRequest) : M unit :=
  let '(diags, data) := Update_Plan_Get req in
  append_diags diags ;;
  return_if_error ;;
  state_set E data.

(** Lines 379-388: the prior state is read and nothing else is done. *)
Definition Delete (E : Extern) (req : DeleteRequest) : M unit :=
  let '(diags, data) := Delete_State_Get req in
  append_diags diags ;;
  return_if_error.

(* ================================================================== *)
(** * The common schema attributes *)
(* ================================================================== *)

(** The schema attributes the two helpers build; [OtherAttribute] stands
    for the attributes of other kinds a caller may pass in. *)
Inductive Attribute :=
  | StringAttribute (Description : string) (Required Computed : bool)
  | BoolAttribute (Description : string) (Required Computed : bool)
  | SingleNestedAttribute (Description : string) (Required : bool)
      (Attributes : gmap string Attribute)
  | OtherAttribute (kind : string).

(** Lines 149-171. *)
Definition harness_defaults : gmap string Attribute :=
  {[ "id" :=
       StringAttribute
         "The unique identifier for the harness. This is generated from the inventory seed and harness name."
         false true;
     "name" :=
       StringAttribute
         "The name of the harness. This must be unique within the scope of the provided inventory."
         true false;
     "inventory" :=
       SingleNestedAttribute
         "The inventory this harness belongs to. This is received as a direct input from a data.imagetest_inventory data source."
         true {[ "seed" := StringAttribute "" true false ]};
     "skipped" :=
       BoolAttribute
         "Whether or not to skip creating the harness based on runtime inputs and the dependent features within this inventory."
         false true ]}.

(** Lines 173-177: [attrs[k] = v] for every default; the map passed in
    is the map returned. *)
Definition addHarnessResourceSchemaAttributes (E : Extern)
    (attrs : gmap string Attribute) : gmap string Attribute :=
  foldl (fun attrs kv => <[kv.1 := kv.2]> attrs) attrs
    (go_range E "addHarnessResourceSchemaAttributes" 0 harness_defaults).

(** Lines 181-204. *)
Definition feature_harness_defaults : gmap string Attribute :=
  {[ "harness" :=
       SingleNestedAttribute "" true
         {[ "id" := StringAttribute "" true false;
            "name" := StringAttribute "" true false;
            "skipped" := BoolAttribute "" true false;
            "inventory" :=
              SingleNestedAttribute "" true
                {[ "seed" := StringAttribute "" true false ]} ]} ]}.

(** Lines 206-210. *)
Definition addFeatureHarnessResourceSchemaAttributes (E : Extern)
    (attrs : gmap string Attribute) : gmap string Attribute :=
  foldl (fun attrs kv => <[kv.1 := kv.2]> attrs) attrs
    (go_range E "addFeatureHarnessResourceSchemaAttributes" 0
       feature_harness_defaults).

(* ================================================================== *)
(** * What the stages of the assembly contribute *)
(* ================================================================== *)

(** The credential options. *)
Definition is_auth_option (o : k3s_Option) : bool :=
  match o with
  | WithAuthFromKeychain _ | WithAuthFromStatic _ _ _ _ => true
  | _ => false
  end.

(** A step that drops no diagnostic. *)
Definition keeps_diagnostics {A} (m : M A) : Prop :=
  ∀ w d, d ∈ resp_Diagnostics (w_resp w) →
         d ∈ resp_Diagnostics (w_resp (m w).2).

(** A stage that only appends options, none of them credentials. *)
Definition appends_no_auth (m : list k3s_Option → M (list k3s_Option)) : Prop :=
  ∀ kopts w kopts' w',
    m kopts w = (Next kopts', w') →
    ∃ added, kopts' = kopts ++ added
             ∧ Forall (fun o => is_auth_option o = false) added.

(** The options one registry gives when its mirror endpoints convert
    (lines 311-326): the Auth block's, then the Mirror block's. *)
Definition registry_entry_options (E : Extern)
    (entry : string * RegistryResourceModel) : list k3s_Option :=
  match Registry_Auth entry.2 with
  | Some auth => [auth_option entry.1 auth]
  | None => []
  end
  ++ match Registry_Mirror entry.2 with
     | Some mirror =>
         [WithRegistryMirror entry.1 (List_ElementsAs E (Mirror_Endpoints mirror)).2]
     | None => []
     end.

(** A registry whose Mirror block, if any, converts. *)
Definition mirror_converts (E : Extern) (entry : string * RegistryResourceModel)
    : Prop :=
  ∀ mirror, Registry_Mirror entry.2 = Some mirror →
            HasError (List_ElementsAs E (Mirror_Endpoints mirror)).1 = false.

(** The bind mount lines 267-271 build from a declared mount whose
    source resolved to [src]. *)
Definition bind_mount (src : string) (m : ContainerResourceMountModel)
    : k3s_Option :=
  WithSandboxMounts
    {| mount_Type_ := TypeBind; mount_Source := src;
       mount_Target := ValueString (Mount_Destination m) |}.

(** The option of the sandbox image when it is accepted. *)
Definition sandbox_image_part (E : Extern)
    (sandbox : HarnessK3sSandboxResourceModel) : list k3s_Option :=
  if IsNull (Sandbox_Image sandbox) then []
  else match name_ParseReference E (ValueString (Sandbox_Image sandbox)) with
       | Ok ref => [WithSandboxImageRef ref]
       | Err _ => []
       end.

(** The option of the harness image when it is accepted (lines
    235-242). *)
Definition image_part (E : Extern) (data : HarnessK3sResourceModel)
    : list k3s_Option :=
  if IsNull (Image data) then []
  else match name_ParseReference E (ValueString (Image data)) with
       | Ok ref => [WithImageRef ref]
       | Err _ => []
       end.

(** The absolute form of a mount source that resolves. *)
Definition resolved_source (E : Extern) (m : ContainerResourceMountModel)
    : string :=
  match filepath_Abs E (ValueString (Mount_Source m)) with
  | Ok src => src
  | Err _ => ""
  end.

(** Every mount source of the sandbox resolves. *)
Definition mounts_resolve (E : Extern)
    (sandbox : HarnessK3sSandboxResourceModel) : Prop :=
  Forall (fun m => filepath_Abs E (ValueString (Mount_Source m))
                   = Ok (resolved_source E m))
    (Sandbox_Mounts sandbox).

(** The options of the sandbox block when it goes through (lines
    244-284): none without a sandbox object; otherwise, for the decoded
    sandbox, the image, the bind mounts, the networks and the
    environment. *)
Definition sandbox_part (E : Extern) (data : HarnessK3sResourceModel)
    : list k3s_Option :=
  if IsNull (Sandbox data) then []
  else
    let sandbox := (Object_As E (Sandbox data)).2 in
    sandbox_image_part E sandbox
    ++ ((fun m => bind_mount (resolved_source E m) m) <$> Sandbox_Mounts sandbox)
    ++ ((fun n => WithSandboxNetworks (ValueString (Network_Name n.2)))
          <$> go_range E "sandbox.Networks" 0 (Sandbox_Networks sandbox))
    ++ [WithSandboxEnv (Map_ElementsAs E (Sandbox_Envs sandbox)).2].

(** Two registries that differ at most in their TLS block. *)
Definition same_but_tls (a b : string * RegistryResourceModel) : Prop :=
  a.1 = b.1 ∧ Registry_Auth a.2 = Registry_Auth b.2
  ∧ Registry_Mirror a.2 = Registry_Mirror b.2.

(* ================================================================== *)
(** * Example inputs *)
(* ================================================================== *)

(** Collaborators that behave: map ranges follow [map_to_list], the empty
    string is no image reference, a relative path has no absolute form
    (the working directory is gone), the only duration understood is
    ["1m"], and Setup needs [setup_needs] nanoseconds. *)
Definition demo_E (setup_needs : Duration) : Extern := {|
  go_range := fun V _ _ m => map_to_list m;
  store_Encode := fun seed =>
    if bool_decide (seed = "") then Err "empty seed" else Ok ("x" +:+ seed);
  Plan_SetAttribute_id := fun _ => [];
  Timeouts_Create := fun v d =>
    match v with
    | TfKnown "1m" => (Minute, [])
    | TfKnown s => (d, [Diag SeverityError "Timeout Cannot Be Parsed" s])
    | _ => (d, [])
    end;
  name_ParseReference := fun s =>
    if bool_decide (s = "") then Err "could not parse reference"
    else Ok {| ref_name := s |};
  filepath_Abs := fun p =>
    if String.prefix "/" p then Ok p else Err "getwd: no such file or directory";
  Object_As := fun o =>
    match o with
    | TfKnown sb => ([], sb)
    | _ => ([Diag SeverityError "Value Conversion Error" "sandbox"],
            {| Sandbox_Image := TfNull; Sandbox_Privileged := TfNull;
               Sandbox_Envs := TfNull; Sandbox_Mounts := [];
               Sandbox_Networks := ∅ |})
    end;
  Map_ElementsAs := fun m =>
    match m with
    | TfKnown kv => ([], ValueString <$> kv)
    | _ => ([], ∅)
    end;
  List_ElementsAs := fun l =>
    match l with
    | TfKnown xs => ([], ValueString <$> xs)
    | _ => ([], [])
    end;
  Sprint_Diagnostics := fun _ => "[]";
  k3s_New := fun id kopts => Ok {| harness_id := id; harness_opts := kopts |};
  harness_Setup := fun _ timeout =>
    if (timeout <? setup_needs)%Z then Some "context deadline exceeded" else None;
  State_Set := fun _ => []
|}.

(** Collaborators that never fail, except that the timeout resolution
    reports [timeout_diags] (and falls back to the default). *)
Definition lenient_E (timeout_diags : Diagnostics) : Extern := {|
  go_range := fun V _ _ m => map_to_list m;
  store_Encode := fun seed => Ok ("x" +:+ seed);
  Plan_SetAttribute_id := fun _ => [];
  Timeouts_Create := fun _ d => (d, timeout_diags);
  name_ParseReference := fun s => Ok {| ref_name := s |};
  filepath_Abs := fun p => Ok ("/work/" +:+ p);
  Object_As := fun o =>
    ([], match o with
         | TfKnown sb => sb
         | _ => {| Sandbox_Image := TfNull; Sandbox_Privileged := TfNull;
                   Sandbox_Envs := TfNull; Sandbox_Mounts := [];
                   Sandbox_Networks := ∅ |}
         end);
  Map_ElementsAs := fun _ => ([], ∅);
  List_ElementsAs := fun _ => ([], []);
  Sprint_Diagnostics := fun _ => "[]";
  k3s_New := fun id kopts => Ok {| harness_id := id; harness_opts := kopts |};
  harness_Setup := fun _ _ => None;
  State_Set := fun _ => []
|}.

Definition unparsed_timeout : Diagnostics :=
  [Diag SeverityError "Timeout Cannot Be Parsed" "5x"].

(** A store without provider-global harness configuration. *)
Definition local_store : ProviderStore :=
  {| labels := ∅; inventory := {| inv_entries := ∅; inv_fault := None |};
     harnesses := ∅; providerResourceData := {| Harnesses := None |} |}.

Definition demo_inv : InventoryDataSourceModel := {| Seed := TfKnown "s1" |}.

Definition demo_id : string := harness_id_of "k3s" "xs1".

Definition feature_of (ls : list (string * string)) : Feature :=
  {| Labels := list_to_map ls |}.

(** An inventory holding [demo_id] under seed ["s1"] with the features
    [feats]. *)
Definition demo_inventory (feats : list Feature) : InventoryStore :=
  {| inv_entries := {[ "s1" := {[ demo_id := feats ]} ]}; inv_fault := None |}.

Definition reg_keychain : RegistryResourceModel :=
  {| Registry_Auth := Some {| Auth_Username := TfNull; Auth_Password := TfNull;
                              Auth_Auth := TfNull |};
     Registry_Tls := None; Registry_Mirror := None |}.

Definition reg_static : RegistryResourceModel :=
  {| Registry_Auth := Some {| Auth_Username := TfKnown "u"; Auth_Password := TfNull;
                              Auth_Auth := TfNull |};
     Registry_Tls := None; Registry_Mirror := None |}.

Definition reg_plain : RegistryResourceModel :=
  {| Registry_Auth := None; Registry_Tls := None; Registry_Mirror := None |}.

Definition net (n : string) : ContainerResourceModelNetwork :=
  {| Network_Name := TfKnown n |}.

(** Provider-global registries [{a: reg_static, b: reg_plain}] and
    networks [n1, n2]. *)
Definition demo_pc : ProviderHarnessK3sModel :=
  {| pc_Registries := {[ "a" := reg_static; "b" := reg_plain ]};
     pc_Networks := [net "n1"; net "n2"] |}.

Definition demo_store (filter : gmap string string) (feats : list Feature)
    : ProviderStore :=
  {| labels := filter; inventory := demo_inventory feats; harnesses := ∅;
     providerResourceData :=
       {| Harnesses := Some {| K3s := Some demo_pc |} |} |}.

Definition demo_sandbox (image : types_String) (mounts : list string)
    : HarnessK3sSandboxResourceModel :=
  {| Sandbox_Image := image; Sandbox_Privileged := TfKnown false;
     Sandbox_Envs := TfKnown ∅;
     Sandbox_Mounts :=
       (fun p => {| Mount_Source := TfKnown p; Mount_Destination := TfKnown "/mnt" |})
         <$> mounts;
     Sandbox_Networks := ∅ |}.

(** Resource registries [{a: reg_keychain}] and networks [{net: n1}]. *)
Definition demo_data (image : types_String) (sandbox : types_Object)
    (timeouts : timeouts_Value) : HarnessK3sResourceModel :=
  {| Id := TfKnown demo_id; Name := TfKnown "k3s"; Inventory := demo_inv;
     Skipped := TfUnknown; Image := image;
     DisableCni := TfKnown false; DisableTraefik := TfKnown true;
     DisableMetricsServer := TfKnown true;
     Registries := Some {[ "a" := reg_keychain ]};
     Networks := Some {[ "net" := net "n1" ]};
     Sandbox := sandbox; Timeouts := timeouts |}.

Definition demo_req (data : HarnessK3sResourceModel) : CreateRequest :=
  {| Plan_Get := ([], data); Config_inventory := ([], demo_inv);
     Plan_id := ([], demo_id) |}.

(** The options and the handle Create arrives at for [demo_data] without
    image and sandbox under [demo_store]. *)
Definition demo_kopts : list k3s_Option :=
  [WithCniDisabled false; WithTraefikDisabled true;
   WithMetricsServerDisabled true; WithAuthFromStatic "a" "u" "" "";
   WithNetworks ["n1"; "n1"; "n2"]].

Definition demo_handle : k3s_harness :=
  {| harness_id := demo_id; harness_opts := demo_kopts |}.

Definition demo_plan_req : ModifyPlanRequest :=
  {| mp_State_Raw_IsNull := true; mp_Config_inventory := ([], demo_inv);
     mp_Config_name := ([], "k3s") |}.

Definition demo_plan_resp : ModifyPlanResponse :=
  {| mp_Diagnostics := []; mp_Plan_id := None |}.

(** [demo_E] with a container runtime that cannot be reached:
    [k3s.New] fails. *)
Definition unreachable_E : Extern := {|
  go_range := fun V => @go_range (demo_E 0) V;
  store_Encode := store_Encode (demo_E 0);
  Plan_SetAttribute_id := Plan_SetAttribute_id (demo_E 0);
  Timeouts_Create := Timeouts_Create (demo_E 0);
  name_ParseReference := name_ParseReference (demo_E 0);
  filepath_Abs := filepath_Abs (demo_E 0);
  Object_As := Object_As (demo_E 0);
  Map_ElementsAs := Map_ElementsAs (demo_E 0);
  List_ElementsAs := List_ElementsAs (demo_E 0);
  Sprint_Diagnostics := Sprint_Diagnostics (demo_E 0);
  k3s_New := fun _ _ => Err "cannot connect to the docker daemon";
  harness_Setup := harness_Setup (demo_E 0);
  State_Set := State_Set (demo_E 0)
|}.

(** [demo_E] with conversions that refuse unknown collections, as the
    framework does. *)
Definition strict_E : Extern := {|
  go_range := fun V => @go_range (demo_E 0) V;
  store_Encode := store_Encode (demo_E 0);
  Plan_SetAttribute_id := Plan_SetAttribute_id (demo_E 0);
  Timeouts_Create := Timeouts_Create (demo_E 0);
  name_ParseReference := name_ParseReference (demo_E 0);
  filepath_Abs := filepath_Abs (demo_E 0);
  Object_As := Object_As (demo_E 0);
  Map_ElementsAs := fun m =>
    match m with
    | TfUnknown => ([Diag SeverityError "Map Type Validation Error" "unknown"], ∅)
    | _ => Map_ElementsAs (demo_E 0) m
    end;
  List_ElementsAs := fun l =>
    match l with
    | TfUnknown => ([Diag SeverityError "List Type Validation Error" "unknown"], [])
    | _ => List_ElementsAs (demo_E 0) l
    end;
  Sprint_Diagnostics := Sprint_Diagnostics (demo_E 0);
  k3s_New := k3s_New (demo_E 0);
  harness_Setup := harness_Setup (demo_E 0);
  State_Set := State_Set (demo_E 0)
|}.

Definition reg_mirror (endpoints : types_List) : RegistryResourceModel :=
  {| Registry_Auth := None; Registry_Tls := None;
     Registry_Mirror := Some {| Mirror_Endpoints := endpoints |} |}.

Definition reg_static_tls : RegistryResourceModel :=
  {| Registry_Auth := Registry_Auth reg_static;
     Registry_Tls := Some {| Tls_CertFile := TfKnown "/tls/cert.pem";
                             Tls_KeyFile := TfKnown "/tls/key.pem";
                             Tls_CaFile := TfNull |};
     Registry_Mirror := None |}.

(** The options Create arrives at for [demo_data] with the image
    ["img"] and a sandbox that mounts ["/a"]. *)
Definition demo_full_kopts : list k3s_Option :=
  [WithCniDisabled false; WithTraefikDisabled true;
   WithMetricsServerDisabled true;
   WithImageRef {| ref_name := "img" |};
   WithSandboxMounts {| mount_Type_ := TypeBind; mount_Source := "/a";
                        mount_Target := "/mnt" |};
   WithSandboxEnv ∅;
   WithAuthFromStatic "a" "u" "" "";
   WithNetworks ["n1"; "n1"; "n2"]].

(* ================================================================== *)
(** * Tactics *)
(* ================================================================== *)

(** Expose the first bind of a step of Create. *)
Tactic Notation "step_bind" := unfold mbind at 1; unfold M_bind at 1.
Tactic Notation "step_bind" "in" hyp(H) :=
  unfold mbind at 1 in H; unfold M_bind at 1 in H.

(** A concrete range follows [map_to_list]. *)
Ltac range_follows_list := intros ? ? ? ?; reflexivity.

(* ================================================================== *)
(** * Diagnostics: membership and errors *)
(* ================================================================== *)

Lemma elem_of_Append (d : Diagnostic) (ds new : Diagnostics) :
  d ∈ Append ds new ↔ d ∈ ds ∨ d ∈ new.
Proof.
  unfold Append. revert ds. induction new as [|x new IH]; intros ds; simpl.
  - rewrite elem_of_nil. tauto.
  - rewrite IH, elem_of_cons. case_bool_decide as Hx.
    + split; [tauto|]. intros [?|[->|?]]; auto.
    + rewrite elem_of_app, list_elem_of_singleton. tauto.
Qed.

Lemma HasError_elem_of (ds : Diagnostics) :
  HasError ds = true ↔ ∃ d, d ∈ ds ∧ is_error d = true.
Proof.
  unfold HasError. rewrite existsb_exists.
  split; intros (d & Hd & He); exists d; split; auto; by apply list_elem_of_In.
Qed.

Lemma HasError_Append (ds new : Diagnostics) :
  HasError (Append ds new) = HasError ds || HasError new.
Proof.
  apply eq_true_iff_eq. rewrite orb_true_iff, !HasError_elem_of.
  setoid_rewrite elem_of_Append. naive_solver.
Qed.

Lemma HasError_AddError (s t : string) (ds : Diagnostics) :
  HasError (AddError s t ds) = true.
Proof. unfold AddError. rewrite HasError_Append. simpl. apply orb_true_r. Qed.

Lemma HasError_AddWarning (s t : string) (ds : Diagnostics) :
  HasError (AddWarning s t ds) = HasError ds.
Proof. unfold AddWarning. rewrite HasError_Append. simpl. apply orb_false_r. Qed.

Lemma elem_of_AddError (s t : string) (ds : Diagnostics) :
  Diag SeverityError s t ∈ AddError s t ds.
Proof. unfold AddError. rewrite elem_of_Append, list_elem_of_singleton. auto. Qed.

(* ================================================================== *)
(** * Ranging over a map *)
(* ================================================================== *)

Lemma elem_of_go_range {V} (E : Extern) site i (m : gmap string V) k v :
  range_ok E → (k, v) ∈ go_range E site i m ↔ m !! k = Some v.
Proof. intros HE. rewrite (HE V site i m). apply elem_of_map_to_list. Qed.

Lemma NoDup_fst_go_range {V} (E : Extern) site i (m : gmap string V) :
  range_ok E → NoDup (go_range E site i m).*1.
Proof. intros HE. rewrite (HE V site i m). apply NoDup_fst_map_to_list. Qed.

(* ================================================================== *)
(** * ShouldSkip *)
(* ================================================================== *)

Lemma range_labels_true (feat : Feature) (order : list (string * string))
    (skip : bool) :
  range_labels feat order skip = true ↔
  skip = true ∨
  ∃ pk pv fv, (pk, pv) ∈ order ∧ Labels feat !! pk = Some fv ∧ fv ≠ pv.
Proof.
  induction order as [|[pk pv] rest IH]; simpl.
  - split; [auto|]. intros [?|(?&?&?&H&_)]; [done|]. by apply elem_of_nil in H.
  - destruct (Labels feat !! pk) as [fv|] eqn:Hfv.
    + case_bool_decide as Hne.
      * split; [|done]. intros _. right. exists pk, pv, fv.
        split; [apply elem_of_cons; auto|done].
      * rewrite IH. split.
        -- intros [?|(k&v&f&Hin&?&?)]; [auto|]. right. exists k, v, f.
           split; [apply elem_of_cons; auto|done].
        -- intros [?|(k&v&f&Hin&Hl&Hd)]; [auto|].
           apply elem_of_cons in Hin as [Heq|Hin].
           ++ injection Heq as -> ->. rewrite Hfv in Hl. injection Hl as ->.
              done.
           ++ right. by exists k, v, f.
    + rewrite IH. split.
      * intros [?|(k&v&f&Hin&?&?)]; [auto|]. right. exists k, v, f.
        split; [apply elem_of_cons; auto|done].
      * intros [?|(k&v&f&Hin&Hl&Hd)]; [auto|].
        apply elem_of_cons in Hin as [Heq|Hin].
        -- injection Heq as -> ->. congruence.
        -- right. by exists k, v, f.
Qed.

Lemma range_feats_true (E : Extern) (filter : gmap string string) (i : nat)
    (feats : list Feature) (skip : bool) :
  range_ok E →
  range_feats E filter i feats skip = true ↔
  skip = true ∨ ∃ feat, feat ∈ feats ∧ mismatch filter feat.
Proof.
  intros HE. revert i skip. induction feats as [|feat rest IH]; intros i skip; simpl.
  - split; [auto|]. intros [?|(?&H&_)]; [done|]. by apply elem_of_nil in H.
  - rewrite IH, range_labels_true. unfold mismatch.
    setoid_rewrite (elem_of_go_range E "ShouldSkip" i filter _ _ HE).
    setoid_rewrite elem_of_cons. naive_solver.
Qed.

(** C1. ShouldSkip answers false when the runtime label filter is empty;
    otherwise it answers true exactly when some feature of the harness
    carries a filter key with a value other than the filter's (a feature
    without the key imposes nothing): the OR over all (feature, key)
    pairs, in whatever order the maps are visited. *)
Theorem ShouldSkip_decides (E : Extern) (store : ProviderStore)
    (req : CreateRequest) (resp : CreateResponse) (feats : list Feature) :
  range_ok E →
  HasError (Config_inventory req).1 = false →
  HasError (Plan_id req).1 = false →
  GetFeatures (inventory store) (ValueString (Seed (Config_inventory req).2))
    (Plan_id req).2 = Ok feats →
  (labels store = ∅ → (ShouldSkip E store req resp).1 = false) ∧
  (labels store ≠ ∅ →
   ((ShouldSkip E store req resp).1 = true ↔
    ∃ feat pk pv fv, feat ∈ feats ∧ labels store !! pk = Some pv ∧
                     Labels feat !! pk = Some fv ∧ fv ≠ pv)).
Proof.
  intros HE HI HP HF. unfold ShouldSkip.
  destruct (Config_inventory req) as [dI inv]. simpl in *. rewrite HI.
  destruct (Plan_id req) as [dP id]. simpl in *. rewrite HP, HF.
  split.
  - intros ->. rewrite map_size_empty. by rewrite bool_decide_eq_true_2.
  - intros Hne. rewrite bool_decide_eq_false_2; [|by rewrite map_size_empty_iff].
    simpl. rewrite range_feats_true by done. unfold mismatch. naive_solver.
Qed.

(** The two evaluations of section 8: a disagreeing feature skips, a
    feature without the key does not. *)
Lemma ShouldSkip_decides_witness :
  (ShouldSkip (demo_E 0) (demo_store {[ "env" := "prod" ]}
                            [feature_of [("env", "dev")]])
     (demo_req (demo_data TfNull TfNull TfNull))
     {| resp_Diagnostics := []; State := None |}).1 = true
  ∧ (ShouldSkip (demo_E 0) (demo_store {[ "env" := "prod" ]} [feature_of []])
       (demo_req (demo_data TfNull TfNull TfNull))
       {| resp_Diagnostics := []; State := None |}).1 = false.
Proof.
  split.
  - apply (ShouldSkip_decides (demo_E 0) (demo_store {[ "env" := "prod" ]}
             [feature_of [("env", "dev")]])
             (demo_req (demo_data TfNull TfNull TfNull))
             {| resp_Diagnostics := []; State := None |}
             [feature_of [("env", "dev")]]);
      [range_follows_list | reflexivity | reflexivity | reflexivity
      | vm_compute; discriminate |].
    exists (feature_of [("env", "dev")]), "env", "prod", "dev".
    repeat split; [apply list_elem_of_singleton; reflexivity | discriminate].
  - vm_compute. reflexivity.
Defined.

(* ================================================================== *)
(** * Config builder: registries and networks *)
(* ================================================================== *)

(** Assigning the entries of a duplicate-free list one after the other:
    the list's entry wins, other keys keep what the map had. *)
Lemma foldl_insert_lookup {V} (l : list (string * V)) (m : gmap string V)
    (k : string) :
  NoDup l.*1 →
  foldl (fun regs kv => <[kv.1 := kv.2]> regs) m l !! k =
  match (list_to_map l : gmap string V) !! k with
  | Some v => Some v
  | None => m !! k
  end.
Proof.
  revert m. induction l as [|[k0 v0] l IH]; intros m Hnd; simpl.
  - by rewrite lookup_empty.
  - apply NoDup_cons in Hnd as [Hk0 Hnd]. rewrite (IH _ Hnd).
    destruct (decide (k = k0)) as [->|Hne].
    + rewrite lookup_insert_eq.
      by rewrite (not_elem_of_list_to_map_1 _ _ Hk0), lookup_insert_eq.
    + by rewrite !(lookup_insert_ne _ k0 k).
Qed.

Lemma merge_registries_lookup (E : Extern)
    (registries : gmap string RegistryResourceModel)
    (pc : ProviderHarnessK3sModel) (k : string) :
  range_ok E →
  merge_registries E registries pc !! k =
  match pc_Registries pc !! k with
  | Some g => Some g
  | None => registries !! k
  end.
Proof.
  intros HE. unfold merge_registries.
  rewrite foldl_insert_lookup by by apply NoDup_fst_go_range.
  rewrite (list_to_map_proper _ (map_to_list (pc_Registries pc)));
    [| by apply NoDup_fst_go_range | apply HE].
  by rewrite list_to_map_to_list.
Qed.

(** C2. In the registry merge of Create, a key the provider-global map
    holds gets the provider-global entry, also when the resource declares
    the same key; every other key keeps what the resource declared. *)
Theorem registries_global_overwrites (E : Extern) (store : ProviderStore)
    (data : HarnessK3sResourceModel) (pc : ProviderHarnessK3sModel) :
  range_ok E →
  provider_k3s store = Some pc →
  (∀ k g, pc_Registries pc !! k = Some g →
          merged_registries E store data !! k = Some g) ∧
  (∀ k, pc_Registries pc !! k = None →
        merged_registries E store data !! k = default ∅ (Registries data) !! k).
Proof.
  intros HE Hpc. unfold merged_registries. rewrite Hpc.
  split; intros k.
  - intros g Hg. by rewrite merge_registries_lookup, Hg.
  - intros Hg. by rewrite merge_registries_lookup, Hg.
Qed.

(** Resource [{a: X}] and provider-global [{a: Y, b: Z}]: [a] is [Y] and
    [b] is [Z]. *)
Lemma registries_global_overwrites_witness :
  default ∅ (Registries (demo_data TfNull TfNull TfNull)) !! "a" = Some reg_keychain
  ∧ merged_registries (demo_E 0) (demo_store ∅ []) (demo_data TfNull TfNull TfNull)
      !! "a" = Some reg_static
  ∧ merged_registries (demo_E 0) (demo_store ∅ []) (demo_data TfNull TfNull TfNull)
      !! "b" = Some reg_plain.
Proof.
  split; [reflexivity|].
  pose proof (registries_global_overwrites (demo_E 0) (demo_store ∅ [])
                (demo_data TfNull TfNull TfNull) demo_pc) as H.
  destruct H as [Hg _]; [range_follows_list | reflexivity |].
  split; apply Hg; reflexivity.
Defined.

Lemma append_networks_app (networks : list string) (pc : ProviderHarnessK3sModel) :
  append_networks networks pc =
  networks ++ ((fun v => ValueString (Network_Name v)) <$> pc_Networks pc).
Proof.
  unfold append_networks. generalize (pc_Networks pc) as l. intros l.
  revert networks. induction l as [|v l IH]; intros networks; simpl.
  - by rewrite app_nil_r.
  - by rewrite IH, <- app_assoc.
Qed.

(* ================================================================== *)
(** * Steps of Create that only report *)
(* ================================================================== *)

Lemma quiet_ret {A} (a : A) : quiet (mret a).
Proof. intros w. simpl. repeat split; auto. discriminate. Qed.

Lemma quiet_bind {A B} (m : M A) (f : A → M B) :
  quiet m → (∀ a, quiet (f a)) → quiet (m ≫= f).
Proof.
  intros Hm Hf w. unfold mbind, M_bind. specialize (Hm w).
  destruct (m w) as [[a|] w1]; simpl in *.
  - specialize (Hf a w1). destruct (f a w1) as [r w2]; simpl in *.
    destruct Hm as (Hs & Ht & Hst & _), Hf as (Hs' & Ht' & Hst' & Hr).
    repeat split; [congruence..|done].
  - destruct Hm as (Hs & Ht & Hst & Hr). auto.
Qed.

Lemma quiet_append_diags (ds : Diagnostics) : quiet (append_diags ds).
Proof. intros w. simpl. repeat split; auto. discriminate. Qed.

Lemma quiet_return_if_error : quiet return_if_error.
Proof.
  intros w. unfold return_if_error.
  destruct (HasError (resp_Diagnostics (w_resp w))) eqn:He; simpl;
    repeat split; auto. discriminate.
Qed.

Lemma quiet_get_store : quiet get_store.
Proof. intros w. simpl. repeat split; auto. discriminate. Qed.

(** Reporting an error and returning. *)
Lemma quiet_fail {A} (s t : string) : quiet (add_error s t ;; @return_ A).
Proof. intros w. simpl. repeat split; auto. intros _. apply HasError_AddError. Qed.

Create HintDb quiet.
#[global] Hint Resolve quiet_ret quiet_append_diags quiet_return_if_error
  quiet_get_store quiet_fail : quiet.

Lemma quiet_image_option (E : Extern) data kopts : quiet (image_option E data kopts).
Proof.
  unfold image_option. destruct (negb (IsNull (Image data))); auto with quiet.
  destruct (name_ParseReference E _); auto with quiet.
Qed.

Lemma quiet_sandbox_mounts (E : Extern) mounts kopts :
  quiet (sandbox_mounts E mounts kopts).
Proof.
  revert kopts. induction mounts as [|m rest IH]; intros kopts; simpl.
  - auto with quiet.
  - destruct (filepath_Abs E _); auto with quiet.
Qed.

Lemma quiet_sandbox_body (E : Extern) sandbox kopts :
  quiet (sandbox_body E sandbox kopts).
Proof.
  unfold sandbox_body. apply quiet_bind.
  { unfold sandbox_image_option.
    destruct (negb (IsNull (Sandbox_Image sandbox))); auto with quiet.
    destruct (name_ParseReference E _); auto with quiet. }
  intros kopts1. apply quiet_bind; [apply quiet_sandbox_mounts|]. intros kopts2.
  destruct (Map_ElementsAs E (Sandbox_Envs sandbox)) as [diags' envs].
  destruct (HasError diags'); auto with quiet.
Qed.

Lemma quiet_sandbox_options (E : Extern) data kopts :
  quiet (sandbox_options E data kopts).
Proof.
  unfold sandbox_options. destruct (negb (IsNull (Sandbox data))); auto with quiet.
  destruct (Object_As E (Sandbox data)) as [diags sandbox].
  apply quiet_bind; [auto with quiet|]. intros _.
  apply quiet_bind; [auto with quiet|]. intros _.
  apply quiet_sandbox_body.
Qed.

Lemma quiet_registry_options (E : Extern) order kopts :
  quiet (registry_options E order kopts).
Proof.
  revert kopts. induction order as [|[rname rdata] rest IH]; intros kopts; simpl.
  - auto with quiet.
  - apply quiet_bind; [|intros; apply IH].
    destruct (Registry_Mirror rdata) as [mirror|]; auto with quiet.
    destruct (List_ElementsAs E (Mirror_Endpoints mirror)) as [diags endpoints].
    destruct (HasError diags); auto with quiet.
Qed.

Lemma quiet_assemble_options (E : Extern) data : quiet (assemble_options E data).
Proof.
  unfold assemble_options.
  apply quiet_bind; [apply quiet_image_option|]. intros k1.
  apply quiet_bind; [apply quiet_sandbox_options|]. intros k2.
  apply quiet_bind; [apply quiet_get_store|]. intros store.
  apply quiet_bind; [apply quiet_registry_options|]. intros k3.
  apply quiet_ret.
Qed.

(* ================================================================== *)
(** * ShouldSkip inside Create *)
(* ================================================================== *)

Lemma ShouldSkip_State (E : Extern) store req resp :
  State (ShouldSkip E store req resp).2 = State resp.
Proof.
  unfold ShouldSkip.
  destruct (Config_inventory req) as [dI inv]. destruct (HasError dI); [done|].
  destruct (Plan_id req) as [dP id]. destruct (HasError dP); [done|].
  destruct (GetFeatures _ _ _); [|done].
  case_bool_decide; [done|]. simpl. by destruct (range_feats _ _ _ _ _).
Qed.

(** A skip comes with a warning only. *)
Lemma ShouldSkip_true_HasError (E : Extern) store req resp :
  (ShouldSkip E store req resp).1 = true →
  HasError (resp_Diagnostics (ShouldSkip E store req resp).2)
  = HasError (resp_Diagnostics resp).
Proof.
  unfold ShouldSkip.
  destruct (Config_inventory req) as [dI inv]. destruct (HasError dI); [done|].
  destruct (Plan_id req) as [dP id]. destruct (HasError dP); [done|].
  destruct (GetFeatures _ _ _); [|done].
  case_bool_decide; [done|]. simpl. intros ->. simpl. apply HasError_AddWarning.
Qed.

(* ================================================================== *)
(** * The shape of a Create *)
(* ================================================================== *)

Lemma Create_head (E : Extern) (req : CreateRequest) (w : World) :
  Create E req w =
  let w1 := with_resp (resp_Append (Plan_Get req).1 (w_resp w)) w in
  if HasError (resp_Diagnostics (w_resp w1)) then (Returned, w1)
  else
    let sk := ShouldSkip E (w_store w) req (w_resp w1) in
    let w2 := with_resp sk.2 w in
    if HasError (resp_Diagnostics sk.2) then (Returned, w2)
    else if sk.1 then (state_set E (planned_data req true) ;; return_) w2
         else create_harness E (planned_data req false) w2.
Proof.
  unfold Create, planned_data. destruct (Plan_Get req) as [d0 data0]. simpl.
  destruct w as [resp store trace].
  unfold mbind, M_bind, append_diags, on_resp, return_if_error, call_ShouldSkip,
    with_resp, resp_Append. simpl.
  destruct (HasError (Append (resp_Diagnostics resp) d0)); simpl; [done|].
  destruct (ShouldSkip E store req _) as [sk resp2]. simpl.
  destruct (HasError (resp_Diagnostics resp2)); [done|].
  by destruct sk.
Qed.

Lemma HasError_planned_resp (req : CreateRequest) :
  HasError (resp_Diagnostics (planned_resp req)) = HasError (Plan_Get req).1.
Proof. unfold planned_resp. simpl. by rewrite HasError_Append. Qed.

Lemma Id_aliased_data (E : Extern) store (req : CreateRequest) (b : bool) :
  Id (aliased_data E store (planned_data req b)) = Id (Plan_Get req).2.
Proof. unfold aliased_data. by destruct (Registries (planned_data req b)). Qed.

Lemma create_harness_outcome (E : Extern) (store : ProviderStore)
    (req : CreateRequest) (w : World) :
  w_trace w = [] → w_store w = store → State (w_resp w) = None →
  Outcome E store req (create_harness E (planned_data req false) w).2.
Proof.
  intros Ht Hs Hst. unfold create_harness.
  assert (Htime : create_timeout E req
            = (Timeouts_Create E (Timeouts (planned_data req false))
                 defaultHarnessK3sCreateTimeout).1) by done.
  destruct (Timeouts_Create E (Timeouts (planned_data req false)) _)
    as [timeout diags]. simpl in Htime.
  step_bind. simpl.
  step_bind.
  match goal with |- context [assemble_options E ?d ?w1] =>
    pose proof (quiet_assemble_options E d w1) as Hq;
    assert (Hs1 : w_store w1 = store) by done;
    destruct (assemble_options E d w1) as [[kopts|] w2] eqn:Hasm end;
    simpl in Hq; destruct Hq as (Hs2 & Ht2 & Hst2 & Hr).
  - step_bind. simpl.
    unfold setup_harness, mbind, M_bind, emit, registry_set, add_error, on_resp,
      return_, state_set. simpl.
    rewrite Hs2, Hs, Ht2, Ht, <- Htime, Id_aliased_data.
    destruct (k3s_New E _ kopts) as [h|e] eqn:Hnew; simpl.
    + destruct (harness_Setup E h (create_timeout E req)) as [e|] eqn:Hsetup; simpl.
      * eapply Out_setup_failed; simpl; eauto using elem_of_AddError;
          [by eexists _, _ | congruence].
      * eapply Out_created; simpl; eauto; [by eexists _, _|].
        unfold persisted. rewrite Hst2, Hst. done.
    + eapply Out_new_failed; simpl; eauto using elem_of_AddError;
        [by eexists _, _ | congruence].
  - simpl. apply Out_aborted; simpl; auto; congruence.
Qed.

(** Create on a fresh response, up to the point where the harness is
    known to be skipped or not. *)
Lemma run_Create_head (E : Extern) (store : ProviderStore) (req : CreateRequest) :
  run_Create E store req =
  if HasError (Plan_Get req).1 then world_of store (planned_resp req)
  else
    let sk := ShouldSkip E store req (planned_resp req) in
    if HasError (resp_Diagnostics sk.2) then world_of store sk.2
    else if sk.1 then
      {| w_resp :=
           resp_Append (State_Set E (planned_data req true))
             {| resp_Diagnostics := resp_Diagnostics sk.2;
                State := persisted E (planned_data req true) |};
         w_store := store;
         w_trace := [EvStateSet (planned_data req true)] |}
    else (create_harness E (planned_data req false) (world_of store sk.2)).2.
Proof.
  unfold run_Create. rewrite Create_head. unfold with_resp, world_of.
  cbv [w_resp w_store w_trace].
  change (resp_Append (Plan_Get req).1 {| resp_Diagnostics := []; State := None |})
    with (planned_resp req).
  rewrite HasError_planned_resp.
  destruct (HasError (Plan_Get req).1); [done|]. cbv zeta.
  pose proof (ShouldSkip_State E store req (planned_resp req)) as Hst.
  destruct (ShouldSkip E store req (planned_resp req)) as [sk resp2].
  simpl in *. destruct (HasError (resp_Diagnostics resp2)); [done|].
  destruct sk; [|done]. unfold persisted, state_set, mbind, M_bind. simpl.
  by rewrite Hst.
Qed.

(** Every Create ends in one of the five ways of [Outcome]. *)
Theorem Create_outcome (E : Extern) (store : ProviderStore) (req : CreateRequest) :
  Outcome E store req (run_Create E store req).
Proof.
  rewrite run_Create_head.
  destruct (HasError (Plan_Get req).1) eqn:H0.
  { apply Out_aborted; simpl; auto. by rewrite HasError_Append. }
  cbv zeta.
  pose proof (ShouldSkip_State E store req (planned_resp req)) as Hst.
  destruct (HasError (resp_Diagnostics (ShouldSkip E store req (planned_resp req)).2))
    eqn:H1.
  { apply Out_aborted; simpl; auto. }
  destruct (ShouldSkip E store req (planned_resp req)).1 eqn:Hsk.
  - apply Out_skipped; simpl; auto.
  - apply create_harness_outcome; simpl; auto.
Qed.

(* ================================================================== *)
(** * Skipping *)
(* ================================================================== *)

(** C6. When the skip evaluation of Create answers true, Create calls
    [State.Set] on the plan data with [Skipped] true, which persists it,
    and does nothing else: the trace holds that one call, so no options
    are handed to [k3s.New], no handle is constructed or stored in the
    Runtime Registry, and Setup is not invoked; the store is as before. *)
Theorem Create_skipped_stops (E : Extern) (store : ProviderStore)
    (req : CreateRequest) :
  HasError (Plan_Get req).1 = false →
  (ShouldSkip E store req (planned_resp req)).1 = true →
  let w := run_Create E store req in
  let data := planned_data req true in
  Skipped data = TfKnown true ∧
  w_trace w = [EvStateSet data] ∧
  State (w_resp w) = persisted E data ∧
  (HasError (State_Set E data) = false → State (w_resp w) = Some data) ∧
  w_store w = store.
Proof.
  intros H0 Hsk w data. subst w data. rewrite run_Create_head, H0. cbv zeta.
  rewrite (ShouldSkip_true_HasError _ _ _ _ Hsk), HasError_planned_resp, H0, Hsk.
  simpl. repeat split; auto. intros Hok. unfold persisted. by rewrite Hok.
Qed.

Lemma Create_skipped_stops_witness :
  let E := demo_E 0 in
  let store := demo_store {[ "env" := "prod" ]} [feature_of [("env", "dev")]] in
  let req := demo_req (demo_data TfNull TfNull TfNull) in
  w_trace (run_Create E store req) = [EvStateSet (planned_data req true)]
  ∧ State (w_resp (run_Create E store req)) = Some (planned_data req true)
  ∧ harnesses (w_store (run_Create E store req)) = ∅.
Proof.
  intros E store req.
  destruct (Create_skipped_stops E store req) as (_ & Ht & _ & Hst & Hs);
    [reflexivity | vm_compute; reflexivity |].
  split; [exact Ht|]. split; [apply Hst; reflexivity|]. rewrite Hs. reflexivity.
Defined.

(* ================================================================== *)
(** * Setup *)
(* ================================================================== *)

(** C7. Whenever Create invokes Setup and Setup answers with an error
    (its own, or the expiry of the timeout it runs under, which is the
    configured create timeout with a default of five minutes), Create
    reports that error, calls [State.Set] not at all, so no state is
    persisted, and leaves the handle in the Runtime Registry: it was set
    before Setup was invoked, and nothing removes it. *)
Theorem Setup_failure_keeps_handle (E : Extern) (store : ProviderStore)
    (req : CreateRequest) (h : k3s_harness) (t : Duration) (e : string) :
  EvSetup h t ∈ w_trace (run_Create E store req) →
  harness_Setup E h t = Some e →
  let w := run_Create E store req in
  let id := ValueString (Id (Plan_Get req).2) in
  t = (Timeouts_Create E (Timeouts (Plan_Get req).2) (5 * 60 * 1000000000)%Z).1
  ∧ Diag SeverityError "failed to setup harness" e ∈ resp_Diagnostics (w_resp w)
  ∧ HasError (resp_Diagnostics (w_resp w)) = true
  ∧ State (w_resp w) = None
  ∧ (∀ d, EvStateSet d ∉ w_trace w)
  ∧ harnesses (w_store w) !! id = Some h
  ∧ ∃ kopts, w_trace w = [EvNew id kopts; EvRegistrySet id h; EvSetup h t].
Proof.
  intros Hin Hfail w id. subst w id.
  destruct (Create_outcome E store req)
    as [Ht _ _ _ | _ Ht _ _ | kopts e' id _ _ Ht _ _ _
       | kopts h' e' id t' _ Hnew Hsetup Ht Hs Hst Hd
       | kopts h' id t' data _ _ Hsetup Ht _ _];
    rewrite Ht in Hin.
  - by apply elem_of_nil in Hin.
  - apply list_elem_of_singleton in Hin. discriminate.
  - apply list_elem_of_singleton in Hin. discriminate.
  - rewrite !elem_of_cons, elem_of_nil in Hin.
    destruct Hin as [?|[?|[Heq|[]]]]; try discriminate.
    injection Heq as -> ->. subst t' id.
    assert (e' = e) as -> by congruence.
    split; [done|]. split; [done|].
    split; [apply HasError_elem_of; by eexists|].
    split; [done|]. rewrite Ht, Hs. split; [|split].
    + intros d Hd'. rewrite !elem_of_cons, elem_of_nil in Hd'.
      destruct Hd' as [?|[?|[?|[]]]]; discriminate.
    + simpl. apply lookup_insert_eq.
    + by exists kopts.
  - rewrite !elem_of_cons, elem_of_nil in Hin.
    destruct Hin as [?|[?|[Heq|[?|[]]]]]; try discriminate.
    injection Heq as -> ->. subst t'. congruence.
Qed.

(** Setup needs ten minutes and the create timeout is one minute: the
    deadline expires. *)
Lemma Setup_failure_keeps_handle_witness :
  let E := demo_E (10 * Minute) in
  let store := demo_store ∅ [] in
  let req := demo_req (demo_data TfNull TfNull (TfKnown "1m")) in
  harness_Setup E demo_handle Minute = Some "context deadline exceeded"
  ∧ HasError (resp_Diagnostics (w_resp (run_Create E store req))) = true
  ∧ State (w_resp (run_Create E store req)) = None
  ∧ harnesses (w_store (run_Create E store req)) !! demo_id = Some demo_handle.
Proof.
  intros E store req. split; [reflexivity|].
  destruct (Setup_failure_keeps_handle E store req demo_handle Minute
              "context deadline exceeded") as (_ & _ & He & Hst & _ & Hh & _).
  - vm_compute. do 2 apply list_elem_of_further. apply list_elem_of_here.
  - reflexivity.
  - split; [exact He|]. split; [exact Hst|]. exact Hh.
Defined.

(* ================================================================== *)
(** * Input validation *)
(* ================================================================== *)

Lemma bind_Returned {A B} (m : M A) (f : A → M B) w w' :
  m w = (Returned, w') → (m ≫= f) w = (Returned, w').
Proof. intros H. unfold mbind, M_bind. by rewrite H. Qed.

Lemma bind_Next {A B} (m : M A) (f : A → M B) w a w' :
  m w = (Next a, w') → (m ≫= f) w = f a w'.
Proof. intros H. unfold mbind, M_bind. by rewrite H. Qed.

(** Create, once the plan decoded and the harness is not skipped, is
    [create_harness] on the response ShouldSkip left. *)
Lemma run_Create_not_skipped (E : Extern) (store : ProviderStore)
    (req : CreateRequest) (resp1 : CreateResponse) :
  HasError (Plan_Get req).1 = false →
  ShouldSkip E store req (planned_resp req) = (false, resp1) →
  HasError (resp_Diagnostics resp1) = false →
  run_Create E store req
  = (create_harness E (planned_data req false) (world_of store resp1)).2
  ∧ State resp1 = None.
Proof.
  intros H0 Hsk H1. rewrite run_Create_head, H0.
  pose proof (ShouldSkip_State E store req (planned_resp req)) as Hst.
  rewrite Hsk in *. simpl in *. by rewrite H1.
Qed.

Lemma create_harness_assemble (E : Extern) (data : HarnessK3sResourceModel)
    (w : World) :
  create_harness E data w =
  match assemble_options E data (timed_world E data w) with
  | (Next kopts, w2) =>
      setup_harness E (aliased_data E (w_store w2) data)
        (Timeouts_Create E (Timeouts data) defaultHarnessK3sCreateTimeout).1
        kopts w2
  | (Returned, w2) => (Returned, w2)
  end.
Proof.
  unfold create_harness, timed_world.
  destruct (Timeouts_Create E (Timeouts data) _) as [timeout diags]. simpl.
  step_bind. simpl.
  step_bind. unfold with_resp.
  by destruct (assemble_options E data _) as [[kopts|] w2].
Qed.

(** When the assembly of the options returns, Create has touched
    nothing. *)
Lemma create_harness_returned (E : Extern) (store : ProviderStore)
    (data : HarnessK3sResourceModel) (resp1 : CreateResponse) (w2 : World)
    (detail : string) :
  State resp1 = None →
  assemble_options E data (timed_world E data (world_of store resp1))
  = (Returned, w2) →
  Diag SeverityError "invalid resource input" detail
    ∈ resp_Diagnostics (w_resp w2) →
  aborts_invalid_input store
    (create_harness E data (world_of store resp1)).2 detail.
Proof.
  intros Hst Hret Hd. rewrite create_harness_assemble.
  pose proof (quiet_assemble_options E data
                (timed_world E data (world_of store resp1))) as Hq.
  rewrite Hret in *. simpl in Hq. destruct Hq as (Hs & Ht & Hst2 & _).
  unfold aborts_invalid_input. simpl. by rewrite Hst2, Hs, Ht.
Qed.

Lemma image_option_accepted (E : Extern) data kopts w :
  image_accepted E (Image data) →
  ∃ kopts', image_option E data kopts w = (Next kopts', w).
Proof.
  unfold image_option. intros [Hnull|[ref Href]].
  - rewrite Hnull. by eexists.
  - rewrite Href. destruct (negb _); by eexists.
Qed.

Lemma image_option_rejected (E : Extern) data kopts w e :
  IsNull (Image data) = false →
  name_ParseReference E (ValueString (Image data)) = Err e →
  ∃ w', image_option E data kopts w = (Returned, w') ∧
        Diag SeverityError "invalid resource input"
          ("invalid image reference: " +:+ e) ∈ resp_Diagnostics (w_resp w').
Proof.
  intros Hnull Hparse. unfold image_option. rewrite Hnull, Hparse. simpl.
  eexists. split; [reflexivity|]. simpl. apply elem_of_AddError.
Qed.

Lemma sandbox_mounts_rejected (E : Extern) pre m post kopts w e :
  Forall (fun m' => ∃ src, filepath_Abs E (ValueString (Mount_Source m')) = Ok src)
    pre →
  filepath_Abs E (ValueString (Mount_Source m)) = Err e →
  ∃ w', sandbox_mounts E (pre ++ m :: post) kopts w = (Returned, w') ∧
        Diag SeverityError "invalid resource input"
          ("invalid mount source: " +:+ e) ∈ resp_Diagnostics (w_resp w').
Proof.
  intros Hpre Hm. revert kopts. induction Hpre as [|m' pre [src Hsrc] _ IH];
    intros kopts; simpl.
  - rewrite Hm. eexists. split; [reflexivity|]. simpl. apply elem_of_AddError.
  - rewrite Hsrc. apply IH.
Qed.

(** A sandbox that decodes without an error so far goes on to its
    options. *)
Lemma sandbox_options_decoded (E : Extern) data sandbox kopts
    (store : ProviderStore) (resp1 : CreateResponse) :
  HasError (resp_Diagnostics resp1) = false →
  sandbox_decoded E data sandbox →
  ∃ w1, sandbox_options E data kopts (timed_world E data (world_of store resp1))
        = sandbox_body E sandbox kopts w1.
Proof.
  intros H1 (Hnull & HT & HS & Hsb). unfold sandbox_options. rewrite Hnull. simpl.
  destruct (Object_As E (Sandbox data)) as [dS sb]. simpl in *. subst sb.
  eexists. step_bind. simpl. step_bind. unfold return_if_error. simpl.
  rewrite !HasError_Append, H1, HT, HS. simpl. reflexivity.
Qed.

Lemma sandbox_image_option_accepted (E : Extern) sandbox kopts w :
  image_accepted E (Sandbox_Image sandbox) →
  ∃ kopts', sandbox_image_option E sandbox kopts w = (Next kopts', w).
Proof.
  unfold sandbox_image_option. intros [Hnull|[ref Href]].
  - rewrite Hnull. by eexists.
  - rewrite Href. destruct (negb _); by eexists.
Qed.

(** C8. A harness image reference that does not parse, a sandbox image
    reference that does not parse, or a sandbox mount source that has no
    absolute form ends Create on the spot with an "invalid resource
    input" error: no state is persisted, the Runtime Registry is as it
    was, and no handle was constructed or set up. *)
Theorem invalid_input_aborts (E : Extern) (store : ProviderStore)
    (req : CreateRequest) (resp1 : CreateResponse) :
  HasError (Plan_Get req).1 = false →
  ShouldSkip E store req (planned_resp req) = (false, resp1) →
  HasError (resp_Diagnostics resp1) = false →
  let data := planned_data req false in
  let w := run_Create E store req in
  (∀ e,
     IsNull (Image data) = false →
     name_ParseReference E (ValueString (Image data)) = Err e →
     aborts_invalid_input store w ("invalid image reference: " +:+ e))
  ∧ (∀ sandbox e,
       image_accepted E (Image data) →
       sandbox_decoded E data sandbox →
       IsNull (Sandbox_Image sandbox) = false →
       name_ParseReference E (ValueString (Sandbox_Image sandbox)) = Err e →
       aborts_invalid_input store w ("invalid sandbox image reference: " +:+ e))
  ∧ (∀ sandbox pre m post e,
       image_accepted E (Image data) →
       sandbox_decoded E data sandbox →
       image_accepted E (Sandbox_Image sandbox) →
       Sandbox_Mounts sandbox = pre ++ m :: post →
       Forall (fun m' => ∃ src,
                 filepath_Abs E (ValueString (Mount_Source m')) = Ok src) pre →
       filepath_Abs E (ValueString (Mount_Source m)) = Err e →
       aborts_invalid_input store w ("invalid mount source: " +:+ e)).
Proof.
  intros H0 Hsk H1 data w.
  destruct (run_Create_not_skipped E store req resp1 H0 Hsk H1) as [Hrun Hst].
  subst w. rewrite Hrun. fold data. split; [|split].
  - intros e Hnull Hparse.
    destruct (image_option_rejected E data (toggle_options data)
                (timed_world E data (world_of store resp1)) e Hnull Hparse)
      as (w' & Himg & Hd).
    eapply create_harness_returned; [done| |exact Hd].
    unfold assemble_options. by apply bind_Returned.
  - intros sandbox e Himage Hdec Hnull Hparse.
    destruct (image_option_accepted E data (toggle_options data)
                (timed_world E data (world_of store resp1)) Himage)
      as (k1 & Himg).
    destruct (sandbox_options_decoded E data sandbox k1 store resp1 H1 Hdec)
      as (w1 & Hsb).
    eapply create_harness_returned; [done| |].
    + unfold assemble_options. rewrite (bind_Next _ _ _ _ _ Himg).
      apply bind_Returned. rewrite Hsb. apply bind_Returned.
      unfold sandbox_image_option. rewrite Hnull, Hparse. simpl. reflexivity.
    + simpl. apply elem_of_AddError.
  - intros sandbox pre m post e Himage Hdec Hsimage Hmounts Hpre Hm.
    destruct (image_option_accepted E data (toggle_options data)
                (timed_world E data (world_of store resp1)) Himage)
      as (k1 & Himg).
    destruct (sandbox_options_decoded E data sandbox k1 store resp1 H1 Hdec)
      as (w1 & Hsb).
    destruct (sandbox_image_option_accepted E sandbox k1 w1 Hsimage) as (k2 & Hk2).
    destruct (sandbox_mounts_rejected E pre m post k2 w1 e Hpre Hm)
      as (w' & Hmnt & Hd).
    eapply create_harness_returned; [done| |exact Hd].
    unfold assemble_options. rewrite (bind_Next _ _ _ _ _ Himg).
    apply bind_Returned. rewrite Hsb. unfold sandbox_body.
    rewrite (bind_Next _ _ _ _ _ Hk2).
    apply bind_Returned. by rewrite Hmounts.
Qed.

(** An empty harness image reference, an empty sandbox image reference,
    and a relative mount source after an absolute one. *)
Lemma invalid_input_aborts_witness :
  let E := demo_E 0 in
  let store := demo_store ∅ [] in
  aborts_invalid_input store
    (run_Create E store (demo_req (demo_data (TfKnown "") TfNull TfNull)))
    "invalid image reference: could not parse reference"
  ∧ aborts_invalid_input store
      (run_Create E store
         (demo_req (demo_data TfNull (TfKnown (demo_sandbox (TfKnown "") []))
                      TfNull)))
      "invalid sandbox image reference: could not parse reference"
  ∧ aborts_invalid_input store
      (run_Create E store
         (demo_req (demo_data TfNull
                      (TfKnown (demo_sandbox TfNull ["/ok"; "rel"])) TfNull)))
      "invalid mount source: getwd: no such file or directory".
Proof.
  intros E store. split; [|split].
  - destruct (invalid_input_aborts E store
                (demo_req (demo_data (TfKnown "") TfNull TfNull)) fresh_resp)
      as (H & _ & _); [reflexivity..|].
    apply (H "could not parse reference"); reflexivity.
  - destruct (invalid_input_aborts E store
                (demo_req (demo_data TfNull
                             (TfKnown (demo_sandbox (TfKnown "") [])) TfNull))
                fresh_resp)
      as (_ & H & _); [reflexivity..|].
    apply (H (demo_sandbox (TfKnown "") []) "could not parse reference");
      [left; reflexivity | repeat split | reflexivity | reflexivity].
  - destruct (invalid_input_aborts E store
                (demo_req (demo_data TfNull
                             (TfKnown (demo_sandbox TfNull ["/ok"; "rel"])) TfNull))
                fresh_resp)
      as (_ & _ & H); [reflexivity..|].
    apply (H (demo_sandbox TfNull ["/ok"; "rel"])
             [{| Mount_Source := TfKnown "/ok"; Mount_Destination := TfKnown "/mnt" |}]
             {| Mount_Source := TfKnown "rel"; Mount_Destination := TfKnown "/mnt" |}
             [] "getwd: no such file or directory");
      [left; reflexivity | repeat split | left; reflexivity | reflexivity
      | repeat constructor; by eexists | reflexivity].
Defined.

(* ================================================================== *)
(** * An error from the timeout resolution *)
(* ================================================================== *)

(** With an error already reported, a sandbox object ends Create at the
    check of line 247. *)
Lemma sandbox_options_accumulated_error (E : Extern) data kopts w :
  IsNull (Sandbox data) = false →
  HasError (resp_Diagnostics (w_resp w)) = true →
  sandbox_options E data kopts w
  = (Returned, with_resp (resp_Append (Object_As E (Sandbox data)).1 (w_resp w)) w).
Proof.
  intros Hnull Herr. unfold sandbox_options. rewrite Hnull. simpl.
  destruct (Object_As E (Sandbox data)) as [dS sandbox]. simpl.
  step_bind. simpl.
  step_bind. unfold return_if_error. simpl.
  by rewrite HasError_Append, Herr.
Qed.

Lemma setup_harness_runs (E : Extern) data t kopts w h :
  k3s_New E (ValueString (Id data)) kopts = Ok h →
  let w' := (setup_harness E data t kopts w).2 in
  (∃ rest, w_trace w' =
           w_trace w ++ [EvNew (ValueString (Id data)) kopts;
                         EvRegistrySet (ValueString (Id data)) h;
                         EvSetup h t] ++ rest)
  ∧ harnesses (w_store w') !! ValueString (Id data) = Some h
  ∧ (∀ d, d ∈ resp_Diagnostics (w_resp w) → d ∈ resp_Diagnostics (w_resp w')).
Proof.
  intros Hnew. unfold setup_harness, mbind, M_bind, emit, registry_set, add_error,
    on_resp, return_, state_set. simpl. rewrite Hnew. simpl.
  destruct (harness_Setup E h t) as [e|]; simpl.
  - split; [exists []; by rewrite <- !app_assoc|].
    split; [apply lookup_insert_eq|].
    intros d Hd. unfold AddError. apply elem_of_Append. auto.
  - split; [eexists [_]; by rewrite <- !app_assoc|].
    split; [apply lookup_insert_eq|].
    intros d Hd. apply elem_of_Append. auto.
Qed.

(** C10, as stated, fails: the timeout resolution reports an error,
    every later collaborator succeeds, a sandbox object is present, and
    Create returns before the handle is registered or set up. *)
Lemma timeout_error_with_sandbox_returns :
  ¬ timeout_error_continues (lenient_E unparsed_timeout) (demo_store ∅ [])
      (demo_req (demo_data TfNull (TfKnown (demo_sandbox TfNull []))
                   (TfKnown "5x"))).
Proof.
  intros H. destruct H as (id & h & t & Hreg & _); try reflexivity.
  - repeat split; intros; try reflexivity; by eexists.
  - vm_compute in Hreg. by apply elem_of_nil in Hreg.
Qed.

(* ================================================================== *)
(** * The options handed to k3s.New *)
(* ================================================================== *)

Lemma Create_New_assembled (E : Extern) (store : ProviderStore)
    (req : CreateRequest) (id : string) (kopts : list k3s_Option) :
  EvNew id kopts ∈ w_trace (run_Create E store req) →
  id = ValueString (Id (Plan_Get req).2) ∧ assembled E store req kopts.
Proof.
  intros Hin.
  destruct (Create_outcome E store req)
    as [Ht _ _ _ | _ Ht _ _ | kopts' e' id' Hasm _ Ht _ _ _
       | kopts' h' e' id' t' Hasm _ _ Ht _ _ _
       | kopts' h' id' t' data Hasm _ _ Ht _ _];
    rewrite Ht in Hin.
  - by apply elem_of_nil in Hin.
  - apply list_elem_of_singleton in Hin. discriminate.
  - apply list_elem_of_singleton in Hin. by injection Hin as -> ->.
  - rewrite !elem_of_cons, elem_of_nil in Hin.
    destruct Hin as [Heq|[?|[?|[]]]]; try discriminate. by injection Heq as -> ->.
  - rewrite !elem_of_cons, elem_of_nil in Hin.
    destruct Hin as [Heq|[?|[?|[?|[]]]]]; try discriminate.
    by injection Heq as -> ->.
Qed.

(** The last two stages of the assembly. *)
Lemma assemble_options_inv (E : Extern) data w1 kopts w2 :
  assemble_options E data w1 = (Next kopts, w2) →
  ∃ k2 wb k3,
    registry_options E
      (go_range E "registries" 0 (merged_registries E (w_store w1) data)) k2 wb
    = (Next k3, w2)
    ∧ kopts = k3 ++ [WithNetworks (assembled_networks E (w_store w1) data)].
Proof.
  unfold assemble_options. intros H.
  step_bind in H.
  pose proof (quiet_image_option E data
    (toggle_options data) w1) as Hq1.
  destruct (image_option E data _ w1) as [[k1|] wa]; [|done].
  simpl in Hq1. destruct Hq1 as (Hs1 & _).
  step_bind in H.
  pose proof (quiet_sandbox_options E data k1 wa) as Hq2.
  destruct (sandbox_options E data k1 wa) as [[k2|] wb]; [|done].
  simpl in Hq2. destruct Hq2 as (Hs2 & _).
  step_bind in H. simpl in H.
  step_bind in H.
  rewrite Hs2, Hs1 in H.
  destruct (registry_options E _ k2 wb) as [[k3|] wc] eqn:Hreg; [|done].
  simpl in H. injection H as <- <-. by exists k2, wb, k3.
Qed.

(** C3. The networks list of Create is the resource-declared names, in
    the order the resource map is visited, followed by the provider-global
    names in their order; nothing is dropped, so a name on both sides
    occurs twice; and this list is the [WithNetworks] option that closes
    the options handed to [k3s.New]. *)
Theorem networks_resource_then_provider (E : Extern) (store : ProviderStore)
    (req : CreateRequest) (pc : ProviderHarnessK3sModel) :
  range_ok E →
  provider_k3s store = Some pc →
  let data := (Plan_Get req).2 in
  assembled_networks E store data =
    resource_networks E data
    ++ ((fun v => ValueString (Network_Name v)) <$> pc_Networks pc)
  ∧ resource_networks E data ≡ₚ
      ((fun kv => ValueString (Network_Name kv.2))
         <$> map_to_list (default ∅ (Networks data)))
  ∧ length (assembled_networks E store data) =
      size (default ∅ (Networks data)) + length (pc_Networks pc)
  ∧ (∀ id kopts,
       EvNew id kopts ∈ w_trace (run_Create E store req) →
       last kopts = Some (WithNetworks (assembled_networks E store data))).
Proof.
  intros HE Hpc data.
  assert (Hperm : resource_networks E data ≡ₚ
      ((fun kv => ValueString (Network_Name kv.2))
         <$> map_to_list (default ∅ (Networks data)))).
  { unfold resource_networks. destruct (Networks data) as [nets|]; simpl.
    - by rewrite (HE _ "data.Networks" 0 nets).
    - by rewrite map_to_list_empty. }
  assert (Happ : assembled_networks E store data =
    resource_networks E data
    ++ ((fun v => ValueString (Network_Name v)) <$> pc_Networks pc)).
  { unfold assembled_networks. by rewrite Hpc, append_networks_app. }
  split; [done|]. split; [done|]. split.
  - rewrite Happ, length_app, Hperm, !length_fmap. by rewrite length_map_to_list.
  - intros id kopts Hin.
    apply Create_New_assembled in Hin as (_ & w1 & w2 & Hs & Hasm).
    apply assemble_options_inv in Hasm as (k2 & wb & k3 & _ & ->).
    rewrite Hs. by rewrite last_snoc.
Qed.

(** Resource networks [n1] and provider networks [n1, n2] give
    [n1, n1, n2]. *)
Lemma networks_resource_then_provider_witness :
  let E := demo_E 0 in
  let store := demo_store ∅ [] in
  let req := demo_req (demo_data TfNull TfNull TfNull) in
  resource_networks E (Plan_Get req).2 = ["n1"]
  ∧ (fun v => ValueString (Network_Name v)) <$> pc_Networks demo_pc = ["n1"; "n2"]
  ∧ assembled_networks E store (Plan_Get req).2 = ["n1"; "n1"; "n2"]
  ∧ last demo_kopts = Some (WithNetworks ["n1"; "n1"; "n2"]).
Proof.
  intros E store req. split; [reflexivity|]. split; [reflexivity|].
  destruct (networks_resource_then_provider E store req demo_pc)
    as (Heq & _ & _ & Hnew);
    [range_follows_list | reflexivity |].
  split; [rewrite Heq; reflexivity|].
  rewrite (Hnew demo_id demo_kopts); [reflexivity|].
  vm_compute. apply list_elem_of_here.
Defined.

(* ================================================================== *)
(** * Registry credentials *)
(* ================================================================== *)

Lemma registry_options_auth (E : Extern) order kopts w kopts' w' :
  registry_options E order kopts w = (Next kopts', w') →
  (∀ o, o ∈ kopts → o ∈ kopts')
  ∧ (∀ rname rdata auth,
       (rname, rdata) ∈ order → Registry_Auth rdata = Some auth →
       auth_option rname auth ∈ kopts').
Proof.
  revert kopts w. induction order as [|[rname rdata] rest IH]; intros kopts w; simpl.
  - intros [= <- <-]. split; [done|]. intros ??? H. by apply elem_of_nil in H.
  - step_bind.
    set (k1 := match Registry_Auth rdata with
               | Some auth => kopts ++ [auth_option rname auth]
               | None => kopts
               end).
    assert (Hk1 : ∀ o, o ∈ kopts → o ∈ k1).
    { intros o Ho. unfold k1. destruct (Registry_Auth rdata); [|done].
      apply elem_of_app. auto. }
    assert (Ha1 : ∀ auth, Registry_Auth rdata = Some auth →
                          auth_option rname auth ∈ k1).
    { intros auth Hauth. unfold k1. rewrite Hauth. apply elem_of_app. right.
      by apply list_elem_of_singleton. }
    destruct (Registry_Mirror rdata) as [mirror|].
    + destruct (List_ElementsAs E (Mirror_Endpoints mirror)) as [diags endpoints].
      destruct (HasError diags); [done|]. simpl. intros Hrest.
      apply IH in Hrest as [Hmono Hauth]. split.
      * intros o Ho. apply Hmono, elem_of_app. auto.
      * intros rn rd auth Hin Hrd. apply elem_of_cons in Hin as [Heq|Hin].
        -- injection Heq as -> ->. apply Hmono, elem_of_app. auto.
        -- eauto.
    + simpl. intros Hrest. apply IH in Hrest as [Hmono Hauth]. split.
      * auto.
      * intros rn rd auth Hin Hrd. apply elem_of_cons in Hin as [Heq|Hin].
        -- injection Heq as -> ->. auto.
        -- eauto.
Qed.

(** C5. For every registry Create configures (after the merge) that has
    an Auth block: with username, password and auth-string all null, the
    options handed to [k3s.New] hold the keychain lookup under the
    registry's name; otherwise they hold the static credentials with
    the three fields as they are (a null field is the empty string). *)
Theorem registry_auth_resolution (E : Extern) (store : ProviderStore)
    (req : CreateRequest) (id : string) (kopts : list k3s_Option)
    (rname : string) (rdata : RegistryResourceModel)
    (auth : RegistryResourceAuthModel) :
  range_ok E →
  EvNew id kopts ∈ w_trace (run_Create E store req) →
  merged_registries E store (Plan_Get req).2 !! rname = Some rdata →
  Registry_Auth rdata = Some auth →
  (IsNull (Auth_Username auth) = true → IsNull (Auth_Password auth) = true →
   IsNull (Auth_Auth auth) = true →
   auth_option rname auth = WithAuthFromKeychain rname
   ∧ WithAuthFromKeychain rname ∈ kopts)
  ∧ (IsNull (Auth_Username auth) && IsNull (Auth_Password auth)
     && IsNull (Auth_Auth auth) = false →
     auth_option rname auth
     = WithAuthFromStatic rname (ValueString (Auth_Username auth))
         (ValueString (Auth_Password auth)) (ValueString (Auth_Auth auth))
     ∧ WithAuthFromStatic rname (ValueString (Auth_Username auth))
         (ValueString (Auth_Password auth)) (ValueString (Auth_Auth auth))
       ∈ kopts).
Proof.
  intros HE Hin Hreg Hauth.
  apply Create_New_assembled in Hin as (_ & w1 & w2 & Hs & Hasm).
  apply assemble_options_inv in Hasm as (k2 & wb & k3 & Hopts & ->).
  apply registry_options_auth in Hopts as [_ Hopts].
  assert (Hk : auth_option rname auth
               ∈ k3 ++ [WithNetworks
                          (assembled_networks E (w_store w1)
                             (planned_data req false))]).
  { apply elem_of_app. left. apply (Hopts rname rdata auth); [|done].
    apply elem_of_go_range; [done|]. by rewrite Hs. }
  split.
  - intros Hu Hp Ha. unfold auth_option in *. rewrite Hu, Hp, Ha in *. done.
  - intros Hset. unfold auth_option in *.
    destruct (IsNull (Auth_Username auth)), (IsNull (Auth_Password auth)),
      (IsNull (Auth_Auth auth)); done.
Qed.

(** The provider-global registry [a] has a username only: static
    credentials. Without provider-global registries, the resource's [a]
    has an empty Auth block: keychain. *)
Lemma registry_auth_resolution_witness :
  let req := demo_req (demo_data TfNull TfNull TfNull) in
  WithAuthFromStatic "a" "u" "" "" ∈ demo_kopts
  ∧ ∃ kopts, EvNew demo_id kopts ∈ w_trace (run_Create (demo_E 0) local_store req)
             ∧ WithAuthFromKeychain "a" ∈ kopts.
Proof.
  intros req. split.
  - destruct (registry_auth_resolution (demo_E 0) (demo_store ∅ []) req demo_id
                demo_kopts "a" reg_static
                {| Auth_Username := TfKnown "u"; Auth_Password := TfNull;
                   Auth_Auth := TfNull |}) as (_ & H);
      [range_follows_list
      | vm_compute; apply list_elem_of_here | reflexivity | reflexivity |].
    apply H. reflexivity.
  - eexists. split; [vm_compute; apply list_elem_of_here|].
    eapply (registry_auth_resolution (demo_E 0) local_store req demo_id _ "a"
              reg_keychain
              {| Auth_Username := TfNull; Auth_Password := TfNull;
                 Auth_Auth := TfNull |});
      [range_follows_list
      | vm_compute; apply list_elem_of_here | reflexivity | reflexivity
      | reflexivity..].
Defined.

(* ================================================================== *)
(** * The harness identifier and the inventory *)
(* ================================================================== *)

Lemma ModifyPlan_plannable (E : Extern) store req resp enc :
  plannable E req enc →
  ModifyPlan E store req resp =
  let seed := ValueString (Seed (mp_Config_inventory req).2) in
  let id := harness_id_of (mp_Config_name req).2 enc in
  let r := AddHarness (inventory store) seed id in
  ({| mp_Diagnostics :=
        match r.1.2 with
        | Some e => AddError "failed to add harness" e (mp_Diagnostics resp)
        | None => mp_Diagnostics resp
        end;
      mp_Plan_id := Some id |},
   set_inventory r.2 store,
   if r.1.1
   then ["Harness.ModifyPlan() | harness [" +:+ id +:+ "] added to inventory"]
   else []).
Proof.
  intros (Hnull & HI & HN & Henc & Hset). unfold ModifyPlan.
  rewrite Hnull. simpl.
  destruct (mp_Config_inventory req) as [dI inv]. simpl in *. rewrite HI.
  destruct (mp_Config_name req) as [dN name]. simpl in *. rewrite HN, Henc, Hset.
  destruct (AddHarness _ _ _) as [[added err] inv']. simpl.
  by destruct err.
Qed.

Lemma harness_id_of_inj (name enc1 enc2 : string) :
  harness_id_of name enc1 = harness_id_of name enc2 → enc1 = enc2.
Proof.
  unfold harness_id_of. intros H.
  apply (String.app_inj name) in H. by apply (String.app_inj "-") in H.
Qed.

(** C4. The identifier ModifyPlan plans is the name, a dash and the
    encoded seed. It depends on nothing but the request: planning again,
    in whatever state the store and the response are, gives the same
    identifier; and the same name under a seed with another encoding
    gives another identifier. *)
Theorem harness_identifier (E : Extern) (store : ProviderStore)
    (req : ModifyPlanRequest) (resp : ModifyPlanResponse) (enc : string) :
  plannable E req enc →
  let name := (mp_Config_name req).2 in
  let planned := mp_Plan_id (ModifyPlan E store req resp).1.1 in
  planned = Some (name +:+ "-" +:+ enc)
  ∧ (∀ store' resp', mp_Plan_id (ModifyPlan E store' req resp').1.1 = planned)
  ∧ (∀ req2 enc2 store2 resp2,
       plannable E req2 enc2 → (mp_Config_name req2).2 = name → enc ≠ enc2 →
       mp_Plan_id (ModifyPlan E store2 req2 resp2).1.1 ≠ planned).
Proof.
  intros Hp name planned. subst planned.
  rewrite (ModifyPlan_plannable _ _ _ _ _ Hp). simpl. split; [done|]. split.
  - intros store' resp'. by rewrite (ModifyPlan_plannable _ _ _ _ _ Hp).
  - intros req2 enc2 store2 resp2 Hp2 Hname Hne.
    rewrite (ModifyPlan_plannable _ _ _ _ _ Hp2). simpl. rewrite Hname.
    intros [= Heq]. by apply harness_id_of_inj in Heq.
Qed.

Lemma harness_identifier_witness :
  mp_Plan_id (ModifyPlan (demo_E 0) (demo_store ∅ []) demo_plan_req
                demo_plan_resp).1.1 = Some "k3s-xs1".
Proof.
  destruct (harness_identifier (demo_E 0) (demo_store ∅ []) demo_plan_req
              demo_plan_resp "xs1") as (H & _ & _).
  - repeat split.
  - exact H.
Defined.

Lemma GetFeatures_AddHarness (st : InventoryStore) (seed id seed' id' : string) :
  GetFeatures (AddHarness st seed id).2 seed' id' = GetFeatures st seed' id'.
Proof.
  unfold AddHarness, GetFeatures.
  destruct (inv_fault st) as [e|] eqn:Hf; simpl; [by rewrite Hf|].
  destruct (inventory_of st seed !! id) as [fs|] eqn:Hid; simpl; [by rewrite Hf|].
  f_equal. unfold inventory_of in *. simpl.
  destruct (decide (seed = seed')) as [->|Hs].
  - rewrite lookup_insert_eq. simpl.
    destruct (decide (id = id')) as [->|Hi].
    + by rewrite lookup_insert_eq, Hid.
    + by rewrite lookup_insert_ne.
  - by rewrite lookup_insert_ne.
Qed.

(** C9. Adding a harness that the inventory does not hold answers
    [added = true]; adding it again answers [added = false] without an
    error and leaves the inventory as it was; no call changes what
    GetFeatures answers; an error comes from the backing store only.
    In ModifyPlan, the second plan of the same harness logs no addition
    and reports nothing. *)
Theorem AddHarness_idempotent (st : InventoryStore) (seed id : string) :
  inv_fault st = None →
  inventory_of st seed !! id = None →
  let first := AddHarness st seed id in
  let second := AddHarness first.2 seed id in
  first.1 = (true, None)
  ∧ second.1 = (false, None)
  ∧ second.2 = first.2
  ∧ (∀ seed' id', GetFeatures second.2 seed' id' = GetFeatures first.2 seed' id'
                  ∧ GetFeatures first.2 seed' id' = GetFeatures st seed' id')
  ∧ (∀ st' e, (AddHarness st' seed id).1.2 = Some e → inv_fault st' = Some e)
  ∧ (∀ E store req resp enc,
       plannable E req enc → inventory store = st →
       ValueString (Seed (mp_Config_inventory req).2) = seed →
       harness_id_of (mp_Config_name req).2 enc = id →
       let plan1 := ModifyPlan E store req resp in
       let plan2 := ModifyPlan E plan1.1.2 req plan1.1.1 in
       plan1.2 = ["Harness.ModifyPlan() | harness [" +:+ id
                    +:+ "] added to inventory"]
       ∧ plan2.2 = []
       ∧ mp_Diagnostics plan2.1.1 = mp_Diagnostics resp
       ∧ inventory plan2.1.2 = inventory plan1.1.2).
Proof.
  intros Hf Hid first second.
  assert (H1 : first = (true, None,
            {| inv_entries :=
                 <[seed := <[id := []]> (inventory_of st seed)]> (inv_entries st);
               inv_fault := inv_fault st |})).
  { subst first. unfold AddHarness. by rewrite Hf, Hid. }
  assert (H2 : second = (false, None, first.2)).
  { subst second. rewrite H1. unfold AddHarness. simpl. rewrite Hf.
    unfold inventory_of. simpl. by rewrite lookup_insert_eq; simpl;
      rewrite lookup_insert_eq. }
  split; [by rewrite H1|]. split; [by rewrite H2|]. split; [by rewrite H2|].
  split; [|split].
  - intros seed' id'. split.
    + subst second. apply GetFeatures_AddHarness.
    + subst first. apply GetFeatures_AddHarness.
  - intros st' e. unfold AddHarness. destruct (inv_fault st') as [e'|]; simpl.
    + by intros [= ->].
    + by destruct (inventory_of st' seed !! id).
  - intros E store req resp enc Hp Hst Hseed Hhid plan1 plan2.
    subst plan2 plan1. rewrite !(ModifyPlan_plannable _ _ _ _ _ Hp).
    cbv zeta. simpl. rewrite Hst, Hseed, Hhid.
    fold first. fold second. rewrite H2, H1. simpl. done.
Qed.

Lemma AddHarness_idempotent_witness :
  let st := {| inv_entries := ∅; inv_fault := None |} in
  (AddHarness st "s1" demo_id).1 = (true, None)
  ∧ (AddHarness (AddHarness st "s1" demo_id).2 "s1" demo_id).1 = (false, None)
  ∧ (ModifyPlan (demo_E 0) local_store demo_plan_req demo_plan_resp).2
    = ["Harness.ModifyPlan() | harness [k3s-xs1] added to inventory"].
Proof.
  intros st.
  destruct (AddHarness_idempotent st "s1" demo_id) as (H1 & H2 & _ & _ & _ & Hp);
    [reflexivity | reflexivity |].
  split; [exact H1|]. split; [exact H2|].
  destruct (Hp (demo_E 0) local_store demo_plan_req demo_plan_resp "xs1")
    as (Hl & _); [repeat split | reflexivity..|].
  exact Hl.
Defined.

(* ================================================================== *)
(** * More on Create: what is persisted and what is touched *)
(* ================================================================== *)

Lemma persisted_Some (E : Extern) (data d : HarnessK3sResourceModel) :
  persisted E data = Some d → d = data ∧ HasError (State_Set E data) = false.
Proof.
  unfold persisted. destruct (HasError (State_Set E data)); [done|].
  by intros [= ->].
Qed.

(** X1. State is written by Create only through a final [State.Set]
    that reports no error, and only in two situations: the harness is
    skipped (the plan data with the flag true), or [k3s.New] and Setup
    both succeeded (the plan data with the flag false, its registries
    map as the merge left it), in which case the handle is registered. *)
Theorem Create_state_only_on_success (E : Extern) (store : ProviderStore)
    (req : CreateRequest) (d : HarnessK3sResourceModel) :
  State (w_resp (run_Create E store req)) = Some d →
  let w := run_Create E store req in
  let id := ValueString (Id (Plan_Get req).2) in
  last (w_trace w) = Some (EvStateSet d)
  ∧ HasError (State_Set E d) = false
  ∧ ((d = planned_data req true
      ∧ (ShouldSkip E store req (planned_resp req)).1 = true
      ∧ w_trace w = [EvStateSet d])
     ∨ (d = aliased_data E store (planned_data req false)
        ∧ ∃ kopts h,
            k3s_New E id kopts = Ok h
            ∧ harness_Setup E h (create_timeout E req) = None
            ∧ harnesses (w_store w) !! id = Some h)).
Proof.
  intros Hst w id. subst w id.
  destruct (Create_outcome E store req)
    as [_ _ Hnone _ | Hsk Ht _ Hp | kopts e id _ _ _ _ Hnone _
       | kopts h e id t _ _ _ _ _ Hnone _
       | kopts h id t data _ Hnew Hsetup Ht Hs Hp];
    try congruence.
  - rewrite Hst in Hp. symmetry in Hp. apply persisted_Some in Hp as [-> Hok].
    rewrite Ht. split; [done|]. split; [done|]. by left.
  - rewrite Hst in Hp. symmetry in Hp. apply persisted_Some in Hp as [-> Hok].
    rewrite Ht, Hs. split; [done|]. split; [done|]. right. split; [done|].
    exists kopts, h. split; [done|]. split; [done|]. simpl. apply lookup_insert_eq.
Qed.

Lemma Create_state_only_on_success_witness :
  let E := demo_E 0 in
  let store := demo_store ∅ [] in
  let req := demo_req (demo_data TfNull TfNull (TfKnown "1m")) in
  State (w_resp (run_Create E store req))
  = Some (aliased_data E store (planned_data req false))
  ∧ last (w_trace (run_Create E store req))
    = Some (EvStateSet (aliased_data E store (planned_data req false))).
Proof.
  intros E store req.
  assert (Hst : State (w_resp (run_Create E store req))
                = Some (aliased_data E store (planned_data req false)))
    by (vm_compute; reflexivity).
  split; [exact Hst|].
  exact (proj1 (Create_state_only_on_success E store req _ Hst)).
Defined.

Lemma create_harness_clean (E : Extern) (data : HarnessK3sResourceModel)
    (w : World) :
  HasError (resp_Diagnostics (w_resp (create_harness E data w).2)) = false →
  ∃ d, State (w_resp (create_harness E data w).2) = Some d.
Proof.
  rewrite create_harness_assemble.
  pose proof (quiet_assemble_options E data (timed_world E data w)) as Hq.
  destruct (assemble_options E data (timed_world E data w)) as [[kopts|] w2];
    simpl in Hq; destruct Hq as (_ & _ & _ & Hr).
  - unfold setup_harness, mbind, M_bind, emit, registry_set, add_error, on_resp,
      return_, state_set. simpl.
    destruct (k3s_New E _ kopts) as [h|e]; simpl.
    + destruct (harness_Setup E h _) as [e|]; simpl.
      * by rewrite HasError_AddError.
      * rewrite HasError_Append. intros [_ Hok]%orb_false_iff. rewrite Hok.
        by eexists.
    + by rewrite HasError_AddError.
  - simpl. intros Hclean. rewrite Hr in Hclean; done.
Qed.

(** X2. A Create that ends without an error diagnostic has persisted a
    state: every way out of Create that writes no state reports an
    error. *)
Theorem Create_clean_persists (E : Extern) (store : ProviderStore)
    (req : CreateRequest) :
  HasError (resp_Diagnostics (w_resp (run_Create E store req))) = false →
  ∃ d, State (w_resp (run_Create E store req)) = Some d.
Proof.
  rewrite run_Create_head.
  destruct (HasError (Plan_Get req).1) eqn:H0.
  { simpl. by rewrite HasError_Append, H0. }
  cbv zeta.
  destruct (HasError (resp_Diagnostics (ShouldSkip E store req (planned_resp req)).2))
    eqn:H1.
  { simpl. by rewrite H1. }
  destruct (ShouldSkip E store req (planned_resp req)).1.
  - simpl. rewrite HasError_Append. intros [_ Hok]%orb_false_iff.
    unfold persisted. rewrite Hok. by eexists.
  - apply create_harness_clean.
Qed.

Lemma Create_clean_persists_witness :
  ∃ d, State (w_resp (run_Create (demo_E 0) (demo_store ∅ [])
                        (demo_req (demo_data TfNull TfNull (TfKnown "1m")))))
       = Some d.
Proof.
  apply (Create_clean_persists (demo_E 0) (demo_store ∅ [])
           (demo_req (demo_data TfNull TfNull (TfKnown "1m")))).
  vm_compute. reflexivity.
Defined.

(** X3. Create leaves the runtime labels, the inventory and the
    provider configuration alone, and in the Runtime Registry it touches
    at most the entry of the plan's identifier: either the store is as it
    was, or [k3s.New] answered a handle and that handle now sits under
    the identifier, replacing whatever was there. *)
Theorem Create_store_footprint (E : Extern) (store : ProviderStore)
    (req : CreateRequest) :
  let w := run_Create E store req in
  let id := ValueString (Id (Plan_Get req).2) in
  labels (w_store w) = labels store
  ∧ inventory (w_store w) = inventory store
  ∧ providerResourceData (w_store w) = providerResourceData store
  ∧ (∀ id', id' ≠ id → harnesses (w_store w) !! id' = harnesses store !! id')
  ∧ (w_store w = store
     ∨ ∃ kopts h, k3s_New E id kopts = Ok h
                  ∧ EvRegistrySet id h ∈ w_trace w
                  ∧ harnesses (w_store w) = <[id := h]> (harnesses store)).
Proof.
  intros w id. subst w id.
  destruct (Create_outcome E store req)
    as [_ Hs _ _ | _ _ Hs _ | kopts e id _ _ _ Hs _ _
       | kopts h e id t _ Hnew _ Ht Hs _ _
       | kopts h id t data _ Hnew _ Ht Hs _];
    rewrite Hs; try (repeat split; auto; fail).
  - repeat split; auto.
    + intros id' Hne. simpl. by rewrite lookup_insert_ne.
    + right. exists kopts, h. rewrite Ht. split; [done|]. split; [|done].
      apply list_elem_of_further, list_elem_of_here.
  - repeat split; auto.
    + intros id' Hne. simpl. by rewrite lookup_insert_ne.
    + right. exists kopts, h. rewrite Ht. split; [done|]. split; [|done].
      apply list_elem_of_further, list_elem_of_here.
Qed.

(** X4. An error while decoding the plan ends Create with the plan's
    diagnostics and nothing else; an error from the inventory while the
    features are read ends it with "failed to get features from
    harness". In both cases nothing is constructed, registered, set up
    or persisted. *)
Theorem Create_stops_before_skip_evaluation (E : Extern) (store : ProviderStore)
    (req : CreateRequest) :
  (HasError (Plan_Get req).1 = true →
   run_Create E store req = world_of store (planned_resp req))
  ∧ (∀ e,
       HasError (Plan_Get req).1 = false →
       HasError (Config_inventory req).1 = false →
       HasError (Plan_id req).1 = false →
       GetFeatures (inventory store)
         (ValueString (Seed (Config_inventory req).2)) (Plan_id req).2 = Err e →
       run_Create E store req
       = world_of store
           (resp_AddError "failed to get features from harness" e
              (planned_resp req))).
Proof.
  split.
  - intros H0. by rewrite run_Create_head, H0.
  - intros e H0 HI HP HF. rewrite run_Create_head, H0. cbv zeta.
    assert (Hsk : ShouldSkip E store req (planned_resp req)
                  = (false, resp_AddError "failed to get features from harness" e
                              (planned_resp req))).
    { unfold ShouldSkip. destruct (Config_inventory req) as [dI inv].
      destruct (Plan_id req) as [dP id]. simpl in *. by rewrite HI, HP, HF. }
    rewrite Hsk. simpl. by rewrite HasError_AddError.
Qed.

Lemma Create_stops_before_skip_evaluation_witness :
  let E := demo_E 0 in
  let bad_plan :=
    {| Plan_Get := ([Diag SeverityError "Value Conversion Error" "plan"],
                    demo_data TfNull TfNull TfNull);
       Config_inventory := ([], demo_inv); Plan_id := ([], demo_id) |} in
  let faulty :=
    {| labels := ∅;
       inventory := {| inv_entries := ∅; inv_fault := Some "inventory locked" |};
       harnesses := ∅; providerResourceData := {| Harnesses := None |} |} in
  w_trace (run_Create E local_store bad_plan) = []
  ∧ resp_Diagnostics
      (w_resp (run_Create E faulty (demo_req (demo_data TfNull TfNull TfNull))))
    = [Diag SeverityError "failed to get features from harness" "inventory locked"].
Proof.
  intros E bad_plan faulty. split.
  - rewrite (proj1 (Create_stops_before_skip_evaluation E local_store bad_plan));
      reflexivity.
  - rewrite (proj2 (Create_stops_before_skip_evaluation E faulty
                      (demo_req (demo_data TfNull TfNull TfNull)))
               "inventory locked"); reflexivity.
Defined.

(** X5. When [k3s.New] answers an error, Create reports "failed to
    initialize k3s harness" and stops: the Runtime Registry is as it
    was, Setup is not invoked and no state is written. *)
Theorem New_failure_registers_nothing (E : Extern) (store : ProviderStore)
    (req : CreateRequest) (id : string) (kopts : list k3s_Option) (e : string) :
  EvNew id kopts ∈ w_trace (run_Create E store req) →
  k3s_New E id kopts = Err e →
  let w := run_Create E store req in
  w_trace w = [EvNew id kopts]
  ∧ w_store w = store
  ∧ State (w_resp w) = None
  ∧ Diag SeverityError "failed to initialize k3s harness" e
    ∈ resp_Diagnostics (w_resp w).
Proof.
  intros Hin Hnew w. subst w.
  destruct (Create_outcome E store req)
    as [Ht _ _ _ | _ Ht _ _ | kopts' e' id' _ Hnew' Ht Hs Hst Hd
       | kopts' h' e' id' t' _ Hnew' _ Ht _ _ _
       | kopts' h' id' t' data _ Hnew' _ Ht _ _];
    rewrite Ht in Hin.
  - by apply elem_of_nil in Hin.
  - apply list_elem_of_singleton in Hin. discriminate.
  - apply list_elem_of_singleton in Hin. injection Hin as -> ->.
    subst id'. assert (e' = e) as -> by congruence. done.
  - rewrite !elem_of_cons, elem_of_nil in Hin.
    destruct Hin as [Heq|[?|[?|[]]]]; try discriminate.
    injection Heq as -> ->. subst id'. congruence.
  - rewrite !elem_of_cons, elem_of_nil in Hin.
    destruct Hin as [Heq|[?|[?|[?|[]]]]]; try discriminate.
    injection Heq as -> ->. subst id'. congruence.
Qed.

Lemma New_failure_registers_nothing_witness :
  let req := demo_req (demo_data TfNull TfNull TfNull) in
  w_trace (run_Create unreachable_E (demo_store ∅ []) req)
  = [EvNew demo_id demo_kopts]
  ∧ State (w_resp (run_Create unreachable_E (demo_store ∅ []) req)) = None.
Proof.
  intros req.
  destruct (New_failure_registers_nothing unreachable_E (demo_store ∅ []) req
              demo_id demo_kopts "cannot connect to the docker daemon")
    as (Ht & _ & Hst & _).
  - vm_compute. apply list_elem_of_here.
  - reflexivity.
  - split; [exact Ht | exact Hst].
Defined.

(** X6. The state a Create writes carries the registries map as the
    merge with the provider-global registries left it, not as the
    resource declared it: the merge assigns into the plan's own map. A
    resource that declares no registries map keeps none, and a skipped
    harness keeps the map it declared. *)
Theorem persisted_registries_are_merged (E : Extern) (store : ProviderStore)
    (req : CreateRequest) (d : HarnessK3sResourceModel) :
  State (w_resp (run_Create E store req)) = Some d →
  (Skipped d = TfKnown true → Registries d = Registries (Plan_Get req).2)
  ∧ (Skipped d = TfKnown false →
     Registries d
     = match Registries (Plan_Get req).2 with
       | Some _ => Some (merged_registries E store (Plan_Get req).2)
       | None => None
       end)
  ∧ (∀ declared pc k g,
       Skipped d = TfKnown false →
       range_ok E →
       Registries (Plan_Get req).2 = Some declared →
       provider_k3s store = Some pc →
       pc_Registries pc !! k = Some g →
       ∃ m, Registries d = Some m ∧ m !! k = Some g).
Proof.
  intros Hst.
  assert (Hd : d = planned_data req true
               ∨ d = aliased_data E store (planned_data req false)).
  { destruct (Create_outcome E store req)
      as [_ _ Hnone _ | _ _ _ Hp | kopts e id _ _ _ _ Hnone _
         | kopts h e id t _ _ _ _ _ Hnone _
         | kopts h id t data _ _ _ _ _ Hp];
      try congruence.
    - rewrite Hst in Hp. symmetry in Hp. apply persisted_Some in Hp as [-> _]. auto.
    - rewrite Hst in Hp. symmetry in Hp. apply persisted_Some in Hp as [-> _]. auto. }
  assert (Hal : Registries (aliased_data E store (planned_data req false))
                = match Registries (Plan_Get req).2 with
                  | Some _ => Some (merged_registries E store (Plan_Get req).2)
                  | None => None
                  end).
  { unfold aliased_data, planned_data. simpl.
    destruct (Registries (Plan_Get req).2) eqn:Hr; simpl; [reflexivity|exact Hr]. }
  assert (Hsk : Skipped (aliased_data E store (planned_data req false))
                = TfKnown false).
  { unfold aliased_data. by destruct (Registries (planned_data req false)). }
  split; [|split].
  - intros Ht. destruct Hd as [->| ->]; [done | congruence].
  - intros Hf. destruct Hd as [->| ->]; [discriminate | done].
  - intros declared pc k g Hf HE Hdecl Hpc Hg.
    destruct Hd as [->| ->]; [discriminate|].
    rewrite Hal, Hdecl. eexists. split; [done|].
    unfold merged_registries. rewrite Hpc. by rewrite merge_registries_lookup, Hg.
Qed.

(** The resource declared [{a: reg_keychain}]; the state holds
    [a: reg_static] and [b: reg_plain] from the provider block. *)
Lemma persisted_registries_are_merged_witness :
  let E := demo_E 0 in
  let store := demo_store ∅ [] in
  let req := demo_req (demo_data TfNull TfNull (TfKnown "1m")) in
  Registries (Plan_Get req).2 = Some {[ "a" := reg_keychain ]}
  ∧ ∃ m, Registries (aliased_data E store (planned_data req false)) = Some m
         ∧ m !! "b" = Some reg_plain.
Proof.
  intros E store req. split; [reflexivity|].
  destruct (persisted_registries_are_merged E store req
              (aliased_data E store (planned_data req false)))
    as (_ & _ & H); [vm_compute; reflexivity|].
  apply (H {[ "a" := reg_keychain ]} demo_pc "b" reg_plain);
    [reflexivity | range_follows_list | reflexivity | reflexivity | reflexivity].
Defined.

(* ================================================================== *)
(** * More on the assembly of the options *)
(* ================================================================== *)

Lemma registry_options_Next (E : Extern) order kopts w kopts' w' :
  registry_options E order kopts w = (Next kopts', w') →
  kopts' = kopts ++ flat_map (registry_entry_options E) order
  ∧ w' = w ∧ Forall (mirror_converts E) order.
Proof.
  revert kopts. induction order as [|[rname rdata] rest IH]; intros kopts; simpl.
  - intros [= <- <-]. by rewrite app_nil_r.
  - step_bind. unfold registry_entry_options at 1. simpl.
    destruct (Registry_Mirror rdata) as [mirror|] eqn:Hm.
    + destruct (List_ElementsAs E (Mirror_Endpoints mirror)) as [diags endpoints]
        eqn:Hconv.
      destruct (HasError diags) eqn:Herr; [done|]. simpl. intros Hrest.
      apply IH in Hrest as (-> & -> & Hall). split; [|split; [done|]].
      * destruct (Registry_Auth rdata); simpl; by rewrite <- !app_assoc.
      * constructor; [|done]. unfold mirror_converts. simpl. rewrite Hm.
        intros m [= <-]. by rewrite Hconv.
    + simpl. intros Hrest. apply IH in Hrest as (-> & -> & Hall).
      split; [|split; [done|]].
      * destruct (Registry_Auth rdata); simpl; by rewrite <- ?app_assoc.
      * constructor; [|done]. unfold mirror_converts. simpl. by rewrite Hm.
Qed.

Lemma registry_options_converts (E : Extern) order kopts w :
  Forall (mirror_converts E) order →
  registry_options E order kopts w
  = (Next (kopts ++ flat_map (registry_entry_options E) order), w).
Proof.
  intros Hall. revert kopts.
  induction Hall as [|[rname rdata] rest Hconv _ IH]; intros kopts; simpl.
  - by rewrite app_nil_r.
  - step_bind. unfold registry_entry_options at 1. simpl.
    unfold mirror_converts in Hconv. simpl in Hconv.
    destruct (Registry_Mirror rdata) as [mirror|].
    + specialize (Hconv mirror eq_refl).
      destruct (List_ElementsAs E (Mirror_Endpoints mirror)) as [diags endpoints].
      simpl in Hconv. rewrite Hconv. simpl. rewrite IH.
      destruct (Registry_Auth rdata); simpl; by rewrite <- !app_assoc.
    + simpl. rewrite IH.
      destruct (Registry_Auth rdata); simpl; by rewrite <- ?app_assoc.
Qed.

(** X7. The registry loop of Create yields options exactly when every
    Mirror block converts to a list of endpoints: then each registry, in
    the order visited, contributes the option of its Auth block followed
    by the option of its Mirror block, and the response is untouched. As
    soon as one Mirror block does not convert, the loop ends Create with
    "failed to convert mirror endpoints". *)
Theorem registry_loop_all_or_error (E : Extern)
    (order : list (string * RegistryResourceModel)) (kopts : list k3s_Option)
    (w : World) :
  (Forall (mirror_converts E) order →
   registry_options E order kopts w
   = (Next (kopts ++ flat_map (registry_entry_options E) order), w))
  ∧ (¬ Forall (mirror_converts E) order →
     (registry_options E order kopts w).1 = Returned
     ∧ Diag SeverityError "failed to convert mirror endpoints" "..."
       ∈ resp_Diagnostics (w_resp (registry_options E order kopts w).2)
     ∧ w_trace (registry_options E order kopts w).2 = w_trace w
     ∧ w_store (registry_options E order kopts w).2 = w_store w
     ∧ State (w_resp (registry_options E order kopts w).2) = State (w_resp w)).
Proof.
  split; [apply registry_options_converts|].
  intros Hnot.
  pose proof (quiet_registry_options E order kopts w) as (Hs & Ht & Hst & _).
  destruct (registry_options E order kopts w) as [[kopts'|] w'] eqn:Hrun.
  { apply registry_options_Next in Hrun as (_ & _ & Hall). done. }
  simpl in *. repeat split; auto.
  clear Hs Ht Hst. revert kopts Hrun Hnot.
  induction order as [|[rname rdata] rest IH]; intros kopts; simpl.
  - discriminate.
  - step_bind. intros Hrun Hnot.
    destruct (Registry_Mirror rdata) as [mirror|] eqn:Hm.
    + destruct (List_ElementsAs E (Mirror_Endpoints mirror)) as [diags endpoints]
        eqn:Hconv.
      destruct (HasError diags) eqn:Herr; simpl in Hrun.
      * injection Hrun as <-. simpl. apply elem_of_AddError.
      * apply (IH _ Hrun). intros Hall. apply Hnot. constructor; [|done].
        unfold mirror_converts. simpl. rewrite Hm. intros m [= <-].
        by rewrite Hconv.
    + simpl in Hrun. apply (IH _ Hrun). intros Hall. apply Hnot.
      constructor; [|done]. unfold mirror_converts. simpl. by rewrite Hm.
Qed.

(** X8. The TLS block of a registry plays no part in the options: two
    sequences of registries with the same names, Auth blocks and Mirror
    blocks give the same result, whatever their certificate, key and CA
    files are. *)
Theorem registry_options_ignore_tls (E : Extern)
    (order1 order2 : list (string * RegistryResourceModel))
    (kopts : list k3s_Option) (w : World) :
  Forall2 same_but_tls order1 order2 →
  registry_options E order1 kopts w = registry_options E order2 kopts w.
Proof.
  intros Hsame. revert kopts w.
  induction Hsame as [|[n1 r1] [n2 r2] rest1 rest2 (Hn & Ha & Hm) _ IH];
    intros kopts w; simpl; [done|].
  simpl in *. subst n2. rewrite Ha, Hm. unfold mbind, M_bind.
  match goal with
  | |- (let (_, _) := ?step in _) = _ => destruct step as [[k|] w']
  end; [apply IH | done].
Qed.

Lemma registry_loop_all_or_error_witness :
  let w := world_of local_store fresh_resp in
  registry_options strict_E
    [("a", reg_static); ("m", reg_mirror (TfKnown [TfKnown "https://mirror"]))]
    [] w
  = (Next [WithAuthFromStatic "a" "u" "" "";
           WithRegistryMirror "m" ["https://mirror"]], w)
  ∧ (registry_options strict_E
       [("a", reg_static); ("m", reg_mirror TfUnknown)] [] w).1 = Returned.
Proof.
  intros w. split.
  - rewrite (proj1 (registry_loop_all_or_error strict_E
               [("a", reg_static);
                ("m", reg_mirror (TfKnown [TfKnown "https://mirror"]))] [] w));
      [reflexivity|].
    repeat constructor; intros m [= <-]; reflexivity.
  - apply (proj2 (registry_loop_all_or_error strict_E
                    [("a", reg_static); ("m", reg_mirror TfUnknown)] [] w)).
    intros Hall. apply Forall_cons in Hall as [_ Hall].
    apply Forall_cons in Hall as [Hm _].
    specialize (Hm _ eq_refl). discriminate.
Defined.

Lemma registry_options_ignore_tls_witness :
  registry_options (demo_E 0) [("a", reg_static_tls)] []
    (world_of local_store fresh_resp)
  = (Next [WithAuthFromStatic "a" "u" "" ""], world_of local_store fresh_resp).
Proof.
  rewrite (registry_options_ignore_tls (demo_E 0) [("a", reg_static_tls)]
             [("a", reg_static)] [] (world_of local_store fresh_resp));
    [reflexivity|].
  repeat constructor.
Defined.

(* ------------------------------------------------------------------ *)
(** ** The sandbox block *)

Lemma sandbox_mounts_resolved (E : Extern)
    (abs : ContainerResourceMountModel → string)
    (mounts : list ContainerResourceMountModel) kopts w :
  Forall (fun m => filepath_Abs E (ValueString (Mount_Source m)) = Ok (abs m))
    mounts →
  sandbox_mounts E mounts kopts w
  = (Next (kopts ++ ((fun m => bind_mount (abs m) m) <$> mounts)), w).
Proof.
  intros Hall. revert kopts. induction Hall as [|m rest Hm _ IH]; intros kopts; simpl.
  - by rewrite app_nil_r.
  - rewrite Hm, IH. unfold bind_mount. by rewrite <- app_assoc.
Qed.

Lemma sandbox_image_option_part (E : Extern) sandbox kopts w :
  image_accepted E (Sandbox_Image sandbox) →
  sandbox_image_option E sandbox kopts w
  = (Next (kopts ++ sandbox_image_part E sandbox), w).
Proof.
  unfold sandbox_image_option, sandbox_image_part. intros [Hnull|[ref Href]].
  - rewrite Hnull. simpl. by rewrite app_nil_r.
  - rewrite Href. destruct (IsNull _); simpl; [by rewrite app_nil_r|done].
Qed.

(** X9. A decoded sandbox whose image is accepted, whose mount sources
    all resolve and whose environment converts contributes, in this
    order: the sandbox image (if set), one bind mount per declared
    mount in the declared order (source made absolute, target the
    declared destination), one network option per sandbox network, and
    the environment; the response is untouched. *)
Theorem sandbox_body_assembles (E : Extern)
    (sandbox : HarnessK3sSandboxResourceModel)
    (abs : ContainerResourceMountModel → string)
    (kopts : list k3s_Option) (w : World) :
  image_accepted E (Sandbox_Image sandbox) →
  Forall (fun m => filepath_Abs E (ValueString (Mount_Source m)) = Ok (abs m))
    (Sandbox_Mounts sandbox) →
  HasError (Map_ElementsAs E (Sandbox_Envs sandbox)).1 = false →
  sandbox_body E sandbox kopts w
  = (Next (kopts
           ++ sandbox_image_part E sandbox
           ++ ((fun m => bind_mount (abs m) m) <$> Sandbox_Mounts sandbox)
           ++ ((fun n => WithSandboxNetworks (ValueString (Network_Name n.2)))
                 <$> go_range E "sandbox.Networks" 0 (Sandbox_Networks sandbox))
           ++ [WithSandboxEnv (Map_ElementsAs E (Sandbox_Envs sandbox)).2]), w).
Proof.
  intros Himg Hmounts Henv. unfold sandbox_body.
  rewrite (bind_Next _ _ _ _ _ (sandbox_image_option_part E sandbox kopts w Himg)).
  rewrite (bind_Next _ _ _ _ _
             (sandbox_mounts_resolved E abs _ _ w Hmounts)).
  destruct (Map_ElementsAs E (Sandbox_Envs sandbox)) as [diags envs].
  simpl in *. rewrite Henv. simpl. by rewrite <- !app_assoc.
Qed.

Lemma sandbox_body_assembles_witness :
  sandbox_body (demo_E 0) (demo_sandbox (TfKnown "img") ["/a"; "/b"]) []
    (world_of local_store fresh_resp)
  = (Next [WithSandboxImageRef {| ref_name := "img" |};
           bind_mount "/a" {| Mount_Source := TfKnown "/a";
                              Mount_Destination := TfKnown "/mnt" |};
           bind_mount "/b" {| Mount_Source := TfKnown "/b";
                              Mount_Destination := TfKnown "/mnt" |};
           WithSandboxEnv ∅],
     world_of local_store fresh_resp).
Proof.
  rewrite (sandbox_body_assembles (demo_E 0)
             (demo_sandbox (TfKnown "img") ["/a"; "/b"])
             (fun m => ValueString (Mount_Source m)));
    [reflexivity | right; by eexists | repeat constructor | reflexivity].
Defined.

(** X10. A sandbox environment that does not convert ends Create with
    an "invalid resource input" error naming the environment, once the
    images are accepted and the mount sources resolve: nothing is
    constructed, registered, set up or persisted. *)
Theorem invalid_envs_abort (E : Extern) (store : ProviderStore)
    (req : CreateRequest) (resp1 : CreateResponse)
    (sandbox : HarnessK3sSandboxResourceModel)
    (abs : ContainerResourceMountModel → string) :
  HasError (Plan_Get req).1 = false →
  ShouldSkip E store req (planned_resp req) = (false, resp1) →
  HasError (resp_Diagnostics resp1) = false →
  let data := planned_data req false in
  image_accepted E (Image data) →
  sandbox_decoded E data sandbox →
  image_accepted E (Sandbox_Image sandbox) →
  Forall (fun m => filepath_Abs E (ValueString (Mount_Source m)) = Ok (abs m))
    (Sandbox_Mounts sandbox) →
  HasError (Map_ElementsAs E (Sandbox_Envs sandbox)).1 = true →
  aborts_invalid_input store (run_Create E store req)
    ("invalid envs input: "
     +:+ Sprint_Diagnostics E (Errors (Map_ElementsAs E (Sandbox_Envs sandbox)).1)).
Proof.
  intros H0 Hsk H1 data Himage Hdec Hsimage Hmounts Henv.
  destruct (run_Create_not_skipped E store req resp1 H0 Hsk H1) as [Hrun Hst].
  rewrite Hrun. fold data.
  destruct (image_option_accepted E data (toggle_options data)
              (timed_world E data (world_of store resp1)) Himage)
    as (k1 & Himg).
  destruct (sandbox_options_decoded E data sandbox k1 store resp1 H1 Hdec)
    as (w1 & Hsb).
  destruct (Map_ElementsAs E (Sandbox_Envs sandbox)) as [diags envs] eqn:Hmap.
  simpl in Henv |- *.
  eapply create_harness_returned; [done| |].
  - unfold assemble_options. rewrite (bind_Next _ _ _ _ _ Himg).
    apply bind_Returned. rewrite Hsb. unfold sandbox_body.
    rewrite (bind_Next _ _ _ _ _ (sandbox_image_option_part E sandbox k1 w1 Hsimage)).
    rewrite (bind_Next _ _ _ _ _ (sandbox_mounts_resolved E abs _ _ w1 Hmounts)).
    rewrite Hmap, Henv. simpl. reflexivity.
  - simpl. apply elem_of_AddError.
Qed.

Lemma invalid_envs_abort_witness :
  let sandbox :=
    {| Sandbox_Image := TfNull; Sandbox_Privileged := TfKnown false;
       Sandbox_Envs := TfUnknown; Sandbox_Mounts := [];
       Sandbox_Networks := ∅ |} in
  aborts_invalid_input (demo_store ∅ [])
    (run_Create strict_E (demo_store ∅ [])
       (demo_req (demo_data TfNull (TfKnown sandbox) TfNull)))
    "invalid envs input: []".
Proof.
  intros sandbox.
  apply (invalid_envs_abort strict_E (demo_store ∅ [])
           (demo_req (demo_data TfNull (TfKnown sandbox) TfNull)) fresh_resp
           sandbox (fun m => ValueString (Mount_Source m)));
    [reflexivity | reflexivity | reflexivity | left; reflexivity
    | repeat split | left; reflexivity | constructor | reflexivity].
Defined.

(* ------------------------------------------------------------------ *)
(** ** The shape of the options *)

Lemma appends_no_auth_image (E : Extern) data :
  appends_no_auth (image_option E data).
Proof.
  intros kopts w kopts' w'. unfold image_option.
  destruct (negb (IsNull (Image data))).
  - destruct (name_ParseReference E _) as [ref|e]; [|done].
    intros [= <- <-]. eexists. split; [done|]. by repeat constructor.
  - intros [= <- <-]. exists []. by rewrite app_nil_r.
Qed.

Lemma appends_no_auth_mounts (E : Extern) mounts :
  appends_no_auth (sandbox_mounts E mounts).
Proof.
  induction mounts as [|m rest IH]; intros kopts w kopts' w'; simpl.
  - intros [= <- <-]. exists []. by rewrite app_nil_r.
  - destruct (filepath_Abs E _) as [src|e]; [|done].
    intros (added & -> & Hall)%IH. eexists (_ :: added).
    split; [by rewrite <- app_assoc|]. by constructor.
Qed.

Lemma appends_no_auth_sandbox_body (E : Extern) sandbox :
  appends_no_auth (sandbox_body E sandbox).
Proof.
  intros kopts w kopts' w'. unfold sandbox_body. step_bind.
  destruct (sandbox_image_option E sandbox kopts w) as [[k1|] w1] eqn:Himg; [|done].
  assert (∃ a1, k1 = kopts ++ a1 ∧ Forall (fun o => is_auth_option o = false) a1)
    as (a1 & -> & Ha1).
  { revert Himg. unfold sandbox_image_option.
    destruct (negb (IsNull (Sandbox_Image sandbox))).
    - destruct (name_ParseReference E _) as [ref|e]; [|done].
      intros [= <- <-]. eexists. split; [done|]. by repeat constructor.
    - intros [= <- <-]. exists []. by rewrite app_nil_r. }
  step_bind.
  destruct (sandbox_mounts E (Sandbox_Mounts sandbox) _ w1) as [[k2|] w2] eqn:Hmnt;
    [|done].
  apply appends_no_auth_mounts in Hmnt as (a2 & -> & Ha2).
  destruct (Map_ElementsAs E (Sandbox_Envs sandbox)) as [diags envs].
  destruct (HasError diags); [done|]. intros [= <- <-].
  exists (a1 ++ a2
          ++ map (fun n => WithSandboxNetworks (ValueString (Network_Name n.2)))
               (go_range E "sandbox.Networks" 0 (Sandbox_Networks sandbox))
          ++ [WithSandboxEnv envs]).
  split; [by rewrite <- !app_assoc|].
  apply Forall_app. split; [done|]. apply Forall_app. split; [done|].
  apply Forall_app. split.
  - apply Forall_forall. intros o (n & <- & _)%list_elem_of_In%in_map_iff. done.
  - by constructor.
Qed.

Lemma appends_no_auth_sandbox (E : Extern) data :
  appends_no_auth (sandbox_options E data).
Proof.
  intros kopts w kopts' w'. unfold sandbox_options.
  destruct (negb (IsNull (Sandbox data))).
  - destruct (Object_As E (Sandbox data)) as [diags sandbox].
    step_bind. simpl. step_bind.
    destruct (return_if_error _) as [[[]|] w1]; [|done].
    apply appends_no_auth_sandbox_body.
  - intros [= <- <-]. exists []. by rewrite app_nil_r.
Qed.

(** The options of an assembly that went through. *)
Lemma assemble_options_shape (E : Extern) data w1 kopts w2 :
  assemble_options E data w1 = (Next kopts, w2) →
  ∃ pre,
    kopts = toggle_options data ++ pre
            ++ flat_map (registry_entry_options E)
                 (go_range E "registries" 0
                    (merged_registries E (w_store w1) data))
            ++ [WithNetworks (assembled_networks E (w_store w1) data)]
    ∧ Forall (fun o => is_auth_option o = false) pre
    ∧ Forall (mirror_converts E)
        (go_range E "registries" 0 (merged_registries E (w_store w1) data)).
Proof.
  unfold assemble_options. intros H. step_bind in H.
  pose proof (quiet_image_option E data (toggle_options data) w1) as Hq1.
  destruct (image_option E data _ w1) as [[k1|] wa] eqn:Himg; [|done].
  simpl in Hq1. destruct Hq1 as (Hs1 & _).
  apply appends_no_auth_image in Himg as (a1 & -> & Ha1).
  step_bind in H.
  pose proof (quiet_sandbox_options E data (toggle_options data ++ a1) wa) as Hq2.
  destruct (sandbox_options E data _ wa) as [[k2|] wb] eqn:Hsb; [|done].
  simpl in Hq2. destruct Hq2 as (Hs2 & _).
  apply appends_no_auth_sandbox in Hsb as (a2 & -> & Ha2).
  step_bind in H. simpl in H. step_bind in H. rewrite Hs2, Hs1 in H.
  destruct (registry_options E _ _ wb) as [[k3|] wc] eqn:Hreg; [|done].
  apply registry_options_Next in Hreg as (-> & _ & Hall).
  simpl in H. injection H as <- <-.
  exists (a1 ++ a2). split; [by rewrite <- !app_assoc|].
  split; [by apply Forall_app|done].
Qed.

(** X12. Create hands [k3s.New] a credential option only for a registry
    of the merged map that has an Auth block, and then it is the option
    that block resolves to: a registry without an Auth block never gets
    credentials, by keychain or otherwise. *)
Theorem credentials_only_for_auth_blocks (E : Extern) (store : ProviderStore)
    (req : CreateRequest) (id : string) (kopts : list k3s_Option)
    (o : k3s_Option) :
  range_ok E →
  EvNew id kopts ∈ w_trace (run_Create E store req) →
  o ∈ kopts →
  is_auth_option o = true →
  ∃ rname rdata auth,
    merged_registries E store (Plan_Get req).2 !! rname = Some rdata
    ∧ Registry_Auth rdata = Some auth
    ∧ o = auth_option rname auth.
Proof.
  intros HE Hin Ho Hauth.
  apply Create_New_assembled in Hin as (_ & w1 & w2 & Hs & Hasm).
  apply assemble_options_shape in Hasm as (pre & -> & Hpre & _).
  rewrite Hs in Ho. rewrite !elem_of_app in Ho.
  destruct Ho as [Ho|[Ho|[Ho|Ho]]].
  - unfold toggle_options in Ho. rewrite !elem_of_cons, elem_of_nil in Ho.
    destruct Ho as [->|[->|[->|[]]]]; discriminate.
  - rewrite Forall_forall in Hpre. rewrite (Hpre o Ho) in Hauth. discriminate.
  - apply list_elem_of_In, in_flat_map in Ho as ([rname rdata] & Hentry & Ho).
    apply list_elem_of_In in Hentry, Ho.
    apply (elem_of_go_range E _ _ _ _ _ HE) in Hentry.
    unfold registry_entry_options in Ho. simpl in Ho.
    apply elem_of_app in Ho as [Ho|Ho].
    + destruct (Registry_Auth rdata) as [auth|] eqn:Ha.
      * apply list_elem_of_singleton in Ho as ->. by exists rname, rdata, auth.
      * by apply elem_of_nil in Ho.
    + destruct (Registry_Mirror rdata).
      * apply list_elem_of_singleton in Ho as ->. discriminate.
      * by apply elem_of_nil in Ho.
  - apply list_elem_of_singleton in Ho as ->. discriminate.
Qed.

Lemma credentials_only_for_auth_blocks_witness :
  ∃ rname rdata auth,
    merged_registries (demo_E 0) (demo_store ∅ [])
      (demo_data TfNull TfNull TfNull) !! rname = Some rdata
    ∧ Registry_Auth rdata = Some auth
    ∧ WithAuthFromStatic "a" "u" "" "" = auth_option rname auth.
Proof.
  apply (credentials_only_for_auth_blocks (demo_E 0) (demo_store ∅ [])
           (demo_req (demo_data TfNull TfNull TfNull)) demo_id demo_kopts
           (WithAuthFromStatic "a" "u" "" ""));
    [range_follows_list | vm_compute; apply list_elem_of_here
    | vm_compute; do 3 apply list_elem_of_further; apply list_elem_of_here
    | reflexivity].
Defined.

(* ================================================================== *)
(** * More on ShouldSkip *)
(* ================================================================== *)

(** X13. What ShouldSkip does to the response: the state is never
    touched and no diagnostic is dropped; an answer of true adds the
    warning that names the harness and nothing else; an answer of false
    leaves the response as it was unless an error was reported. So an
    error never comes with a skip. *)
Theorem ShouldSkip_effect (E : Extern) (store : ProviderStore)
    (req : CreateRequest) (resp : CreateResponse) :
  let answer := (ShouldSkip E store req resp).1 in
  let resp' := (ShouldSkip E store req resp).2 in
  State resp' = State resp
  ∧ (∀ d, d ∈ resp_Diagnostics resp → d ∈ resp_Diagnostics resp')
  ∧ (answer = true →
     resp' = resp_AddWarning
               ("skipping harness [" +:+ (Plan_id req).2 +:+ "] creation")
               "given provider runtime labels do not match feature labels" resp)
  ∧ (answer = false →
     resp' = resp ∨ HasError (resp_Diagnostics resp') = true).
Proof.
  intros answer resp'. subst answer resp'. unfold ShouldSkip.
  destruct (Config_inventory req) as [dI inv].
  destruct (HasError dI).
  { simpl. repeat split; auto using HasError_AddError; try done.
    intros d Hd. apply elem_of_Append. auto. }
  destruct (Plan_id req) as [dP id]. simpl.
  destruct (HasError dP).
  { simpl. repeat split; auto using HasError_AddError; try done.
    intros d Hd. apply elem_of_Append. left. apply elem_of_Append. auto. }
  destruct (GetFeatures _ _ _) as [feats|e].
  2:{ simpl. repeat split; auto using HasError_AddError; try done.
      intros d Hd. apply elem_of_Append. auto. }
  case_bool_decide.
  { simpl. repeat split; auto; done. }
  simpl. destruct (range_feats E (labels store) 0 feats false); simpl.
  - repeat split; auto; try done. intros d Hd. apply elem_of_Append. auto.
  - repeat split; auto; done.
Qed.

(** X14. Skipping is monotone in the features and blind to their order:
    if ShouldSkip answers true for the features of one inventory, it
    answers true for every inventory (under the same runtime labels)
    whose features for the harness include them. *)
Theorem ShouldSkip_monotone (E : Extern) (store store' : ProviderStore)
    (req : CreateRequest) (resp resp' : CreateResponse)
    (feats feats' : list Feature) :
  range_ok E →
  HasError (Config_inventory req).1 = false →
  HasError (Plan_id req).1 = false →
  labels store' = labels store →
  GetFeatures (inventory store) (ValueString (Seed (Config_inventory req).2))
    (Plan_id req).2 = Ok feats →
  GetFeatures (inventory store') (ValueString (Seed (Config_inventory req).2))
    (Plan_id req).2 = Ok feats' →
  (∀ feat, feat ∈ feats → feat ∈ feats') →
  (ShouldSkip E store req resp).1 = true →
  (ShouldSkip E store' req resp').1 = true.
Proof.
  intros HE HI HP Hl HF HF' Hsub. unfold ShouldSkip.
  destruct (Config_inventory req) as [dI inv]. simpl in *. rewrite HI.
  destruct (Plan_id req) as [dP id]. simpl in *. rewrite HP, HF, HF', Hl.
  case_bool_decide; [done|]. simpl.
  rewrite !range_feats_true by done.
  intros [?|(feat & Hin & Hmis)]; [done|]. right. exists feat. auto.
Qed.

Lemma ShouldSkip_monotone_witness :
  (ShouldSkip (demo_E 0)
     (demo_store {[ "env" := "prod" ]}
        [feature_of [("env", "prod")]; feature_of [("env", "dev")]])
     (demo_req (demo_data TfNull TfNull TfNull)) fresh_resp).1 = true.
Proof.
  apply (ShouldSkip_monotone (demo_E 0)
           (demo_store {[ "env" := "prod" ]} [feature_of [("env", "dev")]])
           (demo_store {[ "env" := "prod" ]}
              [feature_of [("env", "prod")]; feature_of [("env", "dev")]])
           (demo_req (demo_data TfNull TfNull TfNull)) fresh_resp fresh_resp
           [feature_of [("env", "dev")]]
           [feature_of [("env", "prod")]; feature_of [("env", "dev")]]);
    [range_follows_list | reflexivity | reflexivity | reflexivity
    | reflexivity | reflexivity | | reflexivity].
  intros feat Hin. apply list_elem_of_further. exact Hin.
Defined.

(* ================================================================== *)
(** * More on ModifyPlan *)
(* ================================================================== *)

(** X15. ModifyPlan either gets as far as the identifier, or leaves the
    store (inventory included) and the planned identifier as they were
    and logs nothing. With prior state it returns at once, the response
    untouched; every other way out reports an error. *)
Theorem ModifyPlan_exits (E : Extern) (store : ProviderStore)
    (req : ModifyPlanRequest) (resp : ModifyPlanResponse) :
  (∃ enc, plannable E req enc)
  ∨ ((ModifyPlan E store req resp).1.2 = store
     ∧ mp_Plan_id (ModifyPlan E store req resp).1.1 = mp_Plan_id resp
     ∧ (ModifyPlan E store req resp).2 = []
     ∧ (mp_State_Raw_IsNull req = false →
        (ModifyPlan E store req resp).1.1 = resp)
     ∧ (mp_State_Raw_IsNull req = true →
        HasError (mp_Diagnostics (ModifyPlan E store req resp).1.1) = true)).
Proof.
  unfold ModifyPlan, plannable.
  destruct (mp_State_Raw_IsNull req) eqn:Hnull; simpl.
  2:{ right. repeat split; auto; done. }
  destruct (mp_Config_inventory req) as [dI inv]. simpl.
  destruct (HasError dI) eqn:HI.
  { right. simpl. repeat split; auto using HasError_AddError; done. }
  destruct (mp_Config_name req) as [dN name]. simpl.
  destruct (HasError dN) eqn:HN.
  { right. simpl. repeat split; auto using HasError_AddError; done. }
  destruct (store_Encode E (ValueString (Seed inv))) as [enc|e] eqn:Henc.
  2:{ right. simpl. repeat split; auto using HasError_AddError; done. }
  destruct (HasError (Plan_SetAttribute_id E (harness_id_of name enc))) eqn:Hset.
  { right. simpl. repeat split; auto using HasError_AddError; done. }
  left. exists enc. done.
Qed.

(** X16. The identifier is planned before the harness is added to the
    inventory, and a failing inventory does not take it back: the plan
    carries the identifier, the error of the backing store is reported
    as "failed to add harness", nothing is logged and the inventory is
    as it was. *)
Theorem ModifyPlan_inventory_failure (E : Extern) (store : ProviderStore)
    (req : ModifyPlanRequest) (resp : ModifyPlanResponse) (enc e : string) :
  plannable E req enc →
  inv_fault (inventory store) = Some e →
  let planned := ModifyPlan E store req resp in
  mp_Plan_id planned.1.1 = Some (harness_id_of (mp_Config_name req).2 enc)
  ∧ Diag SeverityError "failed to add harness" e ∈ mp_Diagnostics planned.1.1
  ∧ planned.2 = []
  ∧ inventory planned.1.2 = inventory store.
Proof.
  intros Hp Hf planned. subst planned.
  rewrite (ModifyPlan_plannable _ _ _ _ _ Hp). cbv zeta.
  unfold AddHarness. rewrite Hf. simpl.
  repeat split; auto. apply elem_of_AddError.
Qed.

Lemma ModifyPlan_inventory_failure_witness :
  let faulty :=
    {| labels := ∅;
       inventory := {| inv_entries := ∅; inv_fault := Some "inventory locked" |};
       harnesses := ∅; providerResourceData := {| Harnesses := None |} |} in
  mp_Plan_id (ModifyPlan (demo_E 0) faulty demo_plan_req demo_plan_resp).1.1
  = Some "k3s-xs1"
  ∧ mp_Diagnostics (ModifyPlan (demo_E 0) faulty demo_plan_req demo_plan_resp).1.1
    = [Diag SeverityError "failed to add harness" "inventory locked"].
Proof.
  intros faulty.
  destruct (ModifyPlan_inventory_failure (demo_E 0) faulty demo_plan_req
              demo_plan_resp "xs1" "inventory locked") as (Hid & _ & _ & _);
    [repeat split | reflexivity |].
  split; [exact Hid | reflexivity].
Defined.

(** X17. A harness that was just planned and has no features registered
    is never skipped, whatever the runtime labels are: ShouldSkip, asked
    for the planned identifier in the store ModifyPlan left, answers
    false and leaves the response alone. *)
Theorem planned_harness_is_not_skipped (E : Extern) (store : ProviderStore)
    (preq : ModifyPlanRequest) (presp : ModifyPlanResponse) (enc : string)
    (creq : CreateRequest) (resp : CreateResponse) :
  plannable E preq enc →
  inv_fault (inventory store) = None →
  inventory_of (inventory store)
    (ValueString (Seed (mp_Config_inventory preq).2))
    !! harness_id_of (mp_Config_name preq).2 enc = None →
  let planned := ModifyPlan E store preq presp in
  HasError (Config_inventory creq).1 = false →
  (Config_inventory creq).2 = (mp_Config_inventory preq).2 →
  HasError (Plan_id creq).1 = false →
  mp_Plan_id planned.1.1 = Some (Plan_id creq).2 →
  ShouldSkip E planned.1.2 creq resp = (false, resp).
Proof.
  intros Hp Hf Hfresh planned HI Hinv HP Hid. subst planned.
  rewrite (ModifyPlan_plannable _ _ _ _ _ Hp) in *. cbv zeta in *. simpl in *.
  injection Hid as Hid. unfold ShouldSkip.
  destruct (Config_inventory creq) as [dI inv].
  destruct (Plan_id creq) as [dP id]. simpl in *. subst inv id.
  rewrite HI, HP, GetFeatures_AddHarness.
  unfold GetFeatures. rewrite Hf, Hfresh. simpl.
  case_bool_decide; [done|]. simpl. done.
Qed.

Lemma planned_harness_is_not_skipped_witness :
  let store :=
    {| labels := {[ "env" := "prod" ]};
       inventory := {| inv_entries := ∅; inv_fault := None |};
       harnesses := ∅; providerResourceData := {| Harnesses := None |} |} in
  ShouldSkip (demo_E 0)
    (ModifyPlan (demo_E 0) store demo_plan_req demo_plan_resp).1.2
    (demo_req (demo_data TfNull TfNull TfNull)) fresh_resp
  = (false, fresh_resp).
Proof.
  intros store.
  apply (planned_harness_is_not_skipped (demo_E 0) store demo_plan_req
           demo_plan_resp "xs1");
    [repeat split | reflexivity..].
Defined.

(* ------------------------------------------------------------------ *)
(** ** The identifier *)

Lemma append_String (c : Ascii.ascii) (s1 s2 : string) :
  String c s1 +:+ s2 = String c (s1 +:+ s2).
Proof. reflexivity. Qed.

Lemma string_length_append (s1 s2 : string) :
  String.length (s1 +:+ s2) = String.length s1 + String.length s2.
Proof.
  induction s1 as [|c s1 IH]; [done|]. rewrite append_String. simpl. by rewrite IH.
Qed.

Lemma string_append_assoc (s1 s2 s3 : string) :
  (s1 +:+ s2) +:+ s3 = s1 +:+ s2 +:+ s3.
Proof.
  induction s1 as [|c s1 IH]; [done|]. rewrite !append_String. by rewrite IH.
Qed.

Lemma string_append_cancel_r (s1 s2 s : string) :
  s1 +:+ s = s2 +:+ s → s1 = s2.
Proof.
  revert s2. induction s1 as [|c s1 IH]; intros [|c2 s2];
    rewrite ?append_String; intros H.
  - done.
  - apply (f_equal String.length) in H. simpl in H.
    rewrite !string_length_append in H. simpl in H. lia.
  - apply (f_equal String.length) in H. simpl in H.
    rewrite !string_length_append in H. simpl in H. lia.
  - injection H as -> H. f_equal. by apply IH.
Qed.

(** X18. Under one encoded seed, different names give different
    identifiers. The identifier does not determine the pair of name and
    encoding, though: a dash may belong to either side, so the name
    [a-b] under the encoding [c] and the name [a] under the encoding
    [b-c] share the identifier [a-b-c]. *)
Theorem harness_id_of_name (enc : string) :
  (∀ name1 name2,
     harness_id_of name1 enc = harness_id_of name2 enc → name1 = name2)
  ∧ (∀ a b, harness_id_of (a +:+ "-" +:+ b) enc
            = harness_id_of a (b +:+ "-" +:+ enc)).
Proof.
  unfold harness_id_of. split.
  - intros name1 name2 H. by apply string_append_cancel_r in H.
  - intros a b. by rewrite string_append_assoc.
Qed.

(* ================================================================== *)
(** * Configure *)
(* ================================================================== *)

Lemma Append_present (ds : Diagnostics) (d : Diagnostic) :
  d ∈ ds → Append ds [d] = ds.
Proof. intros Hd. unfold Append. simpl. by rewrite bool_decide_eq_true_2. Qed.

(** X19. Configure takes the store from provider data that is a
    [*ProviderStore], as the pointer is: a nil pointer of that type
    passes both checks and leaves the resource without a store. Without
    provider data Configure does nothing at all, and provider data of
    another type is reported as "invalid provider data" with the store
    left as it was. So a configured resource loses its store only
    through a nil [*ProviderStore]; and configuring twice with the same
    provider data is the same as configuring once. *)
Theorem Configure_store (r : HarnessResource) (pd : ProviderData)
    (diags : Diagnostics) :
  let r' := (Configure r pd diags).1 in
  let diags' := (Configure r pd diags).2 in
  (∀ p, pd = ProviderData_store p → r_store r' = p ∧ diags' = diags)
  ∧ (pd = ProviderData_nil → r' = r ∧ diags' = diags)
  ∧ (pd = ProviderData_other →
     r' = r ∧ HasError diags' = true
     ∧ Diag SeverityError "invalid provider data" "..." ∈ diags')
  ∧ (is_Some (r_store r) → pd ≠ ProviderData_store None → is_Some (r_store r'))
  ∧ Configure r' pd diags' = (r', diags').
Proof.
  intros r' diags'. subst r' diags'. destruct pd as [|p|]; simpl.
  - repeat split; auto; discriminate.
  - repeat split; auto; try discriminate; try congruence.
    intros _ Hp. destruct p as [s|]; [by eexists | done].
  - repeat split; auto using HasError_AddError, elem_of_AddError; try discriminate.
    unfold AddError at 1. rewrite Append_present; [done|]. apply elem_of_AddError.
Qed.

(* ================================================================== *)
(** * Read, Update and Delete *)
(* ================================================================== *)

(** X20. Delete reads the prior state and does nothing else. After a
    Create that registered a handle, Delete leaves the handle in the
    Runtime Registry, calls neither the k3s package nor [State.Set], and
    leaves the state as Create wrote it: there is no teardown. *)
Theorem Delete_performs_no_teardown (E : Extern) (store : ProviderStore)
    (req : CreateRequest) (dreq : DeleteRequest) (h : k3s_harness) :
  let id := ValueString (Id (Plan_Get req).2) in
  let created := run_Create E store req in
  let deleted := (Delete E dreq created).2 in
  harnesses (w_store created) !! id = Some h →
  harnesses (w_store deleted) !! id = Some h
  ∧ w_store deleted = w_store created
  ∧ w_trace deleted = w_trace created
  ∧ State (w_resp deleted) = State (w_resp created).
Proof.
  intros id created deleted Hh. subst deleted. unfold Delete.
  destruct (Delete_State_Get dreq) as [diags data].
  unfold mbind, M_bind, append_diags, on_resp, return_if_error. simpl.
  by destruct (HasError _).
Qed.

Lemma Delete_performs_no_teardown_witness :
  let E := demo_E 0 in
  let store := demo_store ∅ [] in
  let req := demo_req (demo_data TfNull TfNull (TfKnown "1m")) in
  let dreq :=
    {| Delete_State_Get := ([], aliased_data E store (planned_data req false)) |} in
  harnesses (w_store (Delete E dreq (run_Create E store req)).2) !! demo_id
  = Some demo_handle.
Proof.
  intros E store req dreq.
  apply (Delete_performs_no_teardown E store req dreq demo_handle).
  vm_compute. reflexivity.
Defined.

(** X21. Read and Update are pass-throughs. If decoding (the prior
    state for Read, the plan for Update) or anything before it reported
    an error, nothing is written; otherwise [State.Set] is called once
    with exactly the decoded data. Neither touches the store, so an
    Update with a changed plan rewrites the state and leaves the handle
    of the Runtime Registry, built from the old plan, in place. *)
Theorem Read_Update_pass_through (E : Extern) (w : World)
    (decoded : Diagnostics * HarnessK3sResourceModel) :
  let read := (Read E {| Read_State_Get := decoded |} w).2 in
  let updated := (Update E {| Update_Plan_Get := decoded |} w).2 in
  read = updated
  ∧ w_store updated = w_store w
  ∧ (HasError (Append (resp_Diagnostics (w_resp w)) decoded.1) = true →
     w_trace updated = w_trace w ∧ State (w_resp updated) = State (w_resp w))
  ∧ (HasError (Append (resp_Diagnostics (w_resp w)) decoded.1) = false →
     w_trace updated = w_trace w ++ [EvStateSet decoded.2]
     ∧ State (w_resp updated)
       = if HasError (State_Set E decoded.2) then State (w_resp w)
         else Some decoded.2).
Proof.
  intros read updated. subst read updated. unfold Read, Update.
  destruct decoded as [diags data]. simpl.
  unfold mbind, M_bind, append_diags, on_resp, return_if_error, state_set, emit.
  simpl. destruct (HasError (Append _ diags)); simpl; repeat split; auto; done.
Qed.

Lemma Read_Update_pass_through_witness :
  let E := demo_E 0 in
  let store := demo_store ∅ [] in
  let created := run_Create E store (demo_req (demo_data TfNull TfNull (TfKnown "1m"))) in
  let plan := demo_data (TfKnown "cgr.dev/chainguard/k3s") TfNull (TfKnown "1m") in
  State (w_resp (Update E {| Update_Plan_Get := ([], plan) |} created).2) = Some plan
  ∧ harnesses (w_store (Update E {| Update_Plan_Get := ([], plan) |} created).2)
      !! demo_id = Some demo_handle.
Proof.
  intros E store created plan.
  destruct (Read_Update_pass_through E created ([], plan)) as (_ & Hs & _ & Hok).
  destruct Hok as [_ Hst]; [vm_compute; reflexivity|].
  split; [rewrite Hst; reflexivity|]. rewrite Hs. vm_compute. reflexivity.
Defined.

(* ================================================================== *)
(** * The common schema attributes *)
(* ================================================================== *)

Lemma foldl_insert_union {V} (E : Extern) site i (defaults attrs : gmap string V) :
  range_ok E →
  foldl (fun attrs kv => <[kv.1 := kv.2]> attrs) attrs (go_range E site i defaults)
  = defaults ∪ attrs.
Proof.
  intros HE. apply map_eq. intros k.
  rewrite foldl_insert_lookup by by apply NoDup_fst_go_range.
  rewrite (list_to_map_proper _ (map_to_list defaults));
    [| by apply NoDup_fst_go_range | apply HE].
  rewrite list_to_map_to_list, lookup_union.
  destruct (defaults !! k), (attrs !! k); done.
Qed.

(** X22. The common harness attributes win over the caller's: after
    [addHarnessResourceSchemaAttributes], the attributes [id], [name],
    [inventory] and [skipped] are the built-in ones even when the map
    passed in defines them, and every other attribute is the caller's.
    (The comment above the function says the opposite.) Applying the
    function twice changes nothing more. *)
Theorem harness_attributes_override (E : Extern) (attrs : gmap string Attribute) :
  range_ok E →
  let result := addHarnessResourceSchemaAttributes E attrs in
  (∀ k d, harness_defaults !! k = Some d → result !! k = Some d)
  ∧ (∀ k, k ∉ ({[ "id"; "name"; "inventory"; "skipped" ]} : gset string) →
          result !! k = attrs !! k)
  ∧ dom result = {[ "id"; "name"; "inventory"; "skipped" ]} ∪ dom attrs
  ∧ addHarnessResourceSchemaAttributes E result = result.
Proof.
  intros HE result. subst result. unfold addHarnessResourceSchemaAttributes.
  rewrite !foldl_insert_union by done.
  assert (Hdom : dom harness_defaults
                 = ({[ "id"; "name"; "inventory"; "skipped" ]} : gset string)).
  { unfold harness_defaults. rewrite !dom_insert_L, dom_singleton_L. set_solver. }
  split; [|split; [|split]].
  - intros k d Hd. by rewrite lookup_union, Hd, union_Some_l.
  - intros k Hk. rewrite <- Hdom in Hk. apply not_elem_of_dom in Hk.
    by rewrite lookup_union, Hk, (left_id None _).
  - by rewrite dom_union_L, Hdom.
  - by rewrite (assoc_L (∪)), (idemp_L (∪)).
Qed.

Lemma harness_attributes_override_witness :
  addHarnessResourceSchemaAttributes (demo_E 0)
    {[ "id" := OtherAttribute "custom"; "image" := OtherAttribute "string" ]}
    !! "id" = harness_defaults !! "id"
  ∧ addHarnessResourceSchemaAttributes (demo_E 0)
      {[ "id" := OtherAttribute "custom"; "image" := OtherAttribute "string" ]}
      !! "image" = Some (OtherAttribute "string").
Proof.
  destruct (harness_attributes_override (demo_E 0)
              {[ "id" := OtherAttribute "custom";
                 "image" := OtherAttribute "string" ]})
    as (Hd & Ho & _ & _); [range_follows_list|].
  split.
  - apply Hd. reflexivity.
  - rewrite Ho; [reflexivity|]. vm_compute. intros H. discriminate.
Defined.

(** X23. [addFeatureHarnessResourceSchemaAttributes] sets the attribute
    [harness] to the built-in nested attribute, replacing one the caller
    may have defined, and keeps every other attribute of the caller. *)
Theorem feature_harness_attribute_overrides (E : Extern)
    (attrs : gmap string Attribute) :
  range_ok E →
  let result := addFeatureHarnessResourceSchemaAttributes E attrs in
  result = <["harness" := default (OtherAttribute "")
                            (feature_harness_defaults !! "harness")]> attrs
  ∧ result !! "harness" = feature_harness_defaults !! "harness"
  ∧ (∀ k, k ≠ "harness" → result !! k = attrs !! k)
  ∧ addFeatureHarnessResourceSchemaAttributes E result = result.
Proof.
  intros HE result. subst result. unfold addFeatureHarnessResourceSchemaAttributes.
  rewrite !foldl_insert_union by done.
  unfold feature_harness_defaults. rewrite lookup_singleton_eq. simpl.
  rewrite <- !insert_union_singleton_l.
  split; [done|]. split; [by rewrite lookup_insert_eq|].
  split; [intros k Hk; by rewrite lookup_insert_ne|].
  by rewrite insert_insert_eq.
Qed.

Lemma feature_harness_attribute_overrides_witness :
  addFeatureHarnessResourceSchemaAttributes (demo_E 0)
    {[ "harness" := OtherAttribute "custom" ]} !! "harness"
  = feature_harness_defaults !! "harness".
Proof.
  destruct (feature_harness_attribute_overrides (demo_E 0)
              {[ "harness" := OtherAttribute "custom" ]})
    as (_ & H & _); [range_follows_list|].
  exact H.
Defined.

(* ================================================================== *)
(** * The calls of a Create, in order *)
(* ================================================================== *)

(** X24. What a Create calls, and in which order. It calls nothing; or
    [State.Set] alone (the skipped harness); or [k3s.New], which failed;
    or [k3s.New], then the registry's [Set] with the handle [k3s.New]
    answered, then Setup on that handle under the resolved create
    timeout, which failed; or those three and a final [State.Set]. All
    calls carry the identifier of the plan. So each collaborator is
    called at most once, a handle is registered before it is set up,
    and state is written last. *)
Theorem Create_call_order (E : Extern) (store : ProviderStore)
    (req : CreateRequest) :
  let w := run_Create E store req in
  let id := ValueString (Id (Plan_Get req).2) in
  let t := create_timeout E req in
  w_trace w = []
  ∨ w_trace w = [EvStateSet (planned_data req true)]
  ∨ (∃ kopts e, k3s_New E id kopts = Err e ∧ w_trace w = [EvNew id kopts])
  ∨ (∃ kopts h e,
       k3s_New E id kopts = Ok h ∧ harness_Setup E h t = Some e
       ∧ w_trace w = [EvNew id kopts; EvRegistrySet id h; EvSetup h t])
  ∨ (∃ kopts h,
       k3s_New E id kopts = Ok h ∧ harness_Setup E h t = None
       ∧ w_trace w = [EvNew id kopts; EvRegistrySet id h; EvSetup h t;
                      EvStateSet (aliased_data E store (planned_data req false))]).
Proof.
  intros w id t. subst w id t.
  destruct (Create_outcome E store req)
    as [Ht _ _ _ | _ Ht _ _ | kopts e id _ Hnew Ht _ _ _
       | kopts h e id t _ Hnew Hsetup Ht _ _ _
       | kopts h id t data _ Hnew Hsetup Ht _ _].
  - by left.
  - right. by left.
  - right. right. left. by exists kopts, e.
  - right. right. right. left. by exists kopts, h, e.
  - right. right. right. right. by exists kopts, h.
Qed.

(* ================================================================== *)
(** * Diagnostics are never lost *)
(* ================================================================== *)

Lemma keeps_ret {A} (a : A) : keeps_diagnostics (mret a).
Proof. intros w d Hd. done. Qed.

Lemma keeps_return {A} : keeps_diagnostics (@return_ A).
Proof. intros w d Hd. done. Qed.

Lemma keeps_bind {A B} (m : M A) (f : A → M B) :
  keeps_diagnostics m → (∀ a, keeps_diagnostics (f a)) →
  keeps_diagnostics (m ≫= f).
Proof.
  intros Hm Hf w d Hd. unfold mbind, M_bind. specialize (Hm w d Hd).
  destruct (m w) as [[a|] w1]; simpl in *; [|done].
  by apply Hf.
Qed.

Lemma keeps_append_diags (ds : Diagnostics) : keeps_diagnostics (append_diags ds).
Proof. intros w d Hd. simpl. apply elem_of_Append. auto. Qed.

Lemma keeps_add_error (s t : string) : keeps_diagnostics (add_error s t).
Proof. intros w d Hd. simpl. apply elem_of_Append. auto. Qed.

Lemma keeps_return_if_error : keeps_diagnostics return_if_error.
Proof. intros w d Hd. unfold return_if_error. by destruct (HasError _). Qed.

Lemma keeps_get_store : keeps_diagnostics get_store.
Proof. intros w d Hd. done. Qed.

Lemma keeps_emit (ev : Event) : keeps_diagnostics (emit ev).
Proof. intros w d Hd. done. Qed.

Lemma keeps_registry_set id h : keeps_diagnostics (registry_set id h).
Proof. intros w d Hd. done. Qed.

Lemma keeps_fail {A} (s t : string) :
  keeps_diagnostics (add_error s t ;; @return_ A).
Proof. apply keeps_bind; [apply keeps_add_error|]. intros _. apply keeps_return. Qed.

Lemma keeps_state_set (E : Extern) data : keeps_diagnostics (state_set E data).
Proof. intros w d Hd. simpl. apply elem_of_Append. auto. Qed.

Create HintDb keeps.
#[global] Hint Resolve keeps_ret keeps_return keeps_append_diags keeps_add_error
  keeps_return_if_error keeps_get_store keeps_emit keeps_registry_set keeps_fail
  keeps_state_set : keeps.

Lemma ShouldSkip_keeps (E : Extern) store req resp d :
  d ∈ resp_Diagnostics resp →
  d ∈ resp_Diagnostics (ShouldSkip E store req resp).2.
Proof.
  intros Hd. unfold ShouldSkip.
  destruct (Config_inventory req) as [dI inv].
  destruct (HasError dI); [simpl; apply elem_of_Append; auto|].
  destruct (Plan_id req) as [dP id].
  destruct (HasError dP).
  { simpl. apply elem_of_Append. left. apply elem_of_Append. auto. }
  destruct (GetFeatures _ _ _); [|simpl; apply elem_of_Append; auto].
  case_bool_decide; [done|]. simpl.
  destruct (range_feats _ _ _ _ _); [simpl; apply elem_of_Append; auto|done].
Qed.

Lemma keeps_call_ShouldSkip (E : Extern) req : keeps_diagnostics (call_ShouldSkip E req).
Proof.
  intros w d Hd. unfold call_ShouldSkip.
  pose proof (ShouldSkip_keeps E (w_store w) req (w_resp w) d Hd) as H.
  by destruct (ShouldSkip E (w_store w) req (w_resp w)).
Qed.

Lemma keeps_image_option (E : Extern) data kopts :
  keeps_diagnostics (image_option E data kopts).
Proof.
  unfold image_option. destruct (negb _); auto with keeps.
  destruct (name_ParseReference E _); auto with keeps.
Qed.

Lemma keeps_sandbox_mounts (E : Extern) mounts kopts :
  keeps_diagnostics (sandbox_mounts E mounts kopts).
Proof.
  revert kopts. induction mounts as [|m rest IH]; intros kopts; simpl.
  - auto with keeps.
  - destruct (filepath_Abs E _); auto with keeps.
Qed.

Lemma keeps_sandbox_options (E : Extern) data kopts :
  keeps_diagnostics (sandbox_options E data kopts).
Proof.
  unfold sandbox_options. destruct (negb _); auto with keeps.
  destruct (Object_As E (Sandbox data)) as [diags sandbox].
  apply keeps_bind; [auto with keeps|]. intros _.
  apply keeps_bind; [auto with keeps|]. intros _.
  unfold sandbox_body. apply keeps_bind.
  { unfold sandbox_image_option. destruct (negb _); auto with keeps.
    destruct (name_ParseReference E _); auto with keeps. }
  intros k1. apply keeps_bind; [apply keeps_sandbox_mounts|]. intros k2.
  destruct (Map_ElementsAs E _) as [diags' envs].
  destruct (HasError diags'); auto with keeps.
Qed.

Lemma keeps_registry_options (E : Extern) order kopts :
  keeps_diagnostics (registry_options E order kopts).
Proof.
  revert kopts. induction order as [|[rname rdata] rest IH]; intros kopts; simpl.
  - auto with keeps.
  - apply keeps_bind; [|intros; apply IH].
    destruct (Registry_Mirror rdata) as [mirror|]; auto with keeps.
    destruct (List_ElementsAs E _) as [diags endpoints].
    destruct (HasError diags); auto with keeps.
Qed.

Lemma keeps_create_harness (E : Extern) data :
  keeps_diagnostics (create_harness E data).
Proof.
  unfold create_harness. destruct (Timeouts_Create E _ _) as [timeout diags].
  apply keeps_bind; [auto with keeps|]. intros _.
  apply keeps_bind.
  { unfold assemble_options.
    apply keeps_bind; [apply keeps_image_option|]. intros k1.
    apply keeps_bind; [apply keeps_sandbox_options|]. intros k2.
    apply keeps_bind; [auto with keeps|]. intros st.
    apply keeps_bind; [apply keeps_registry_options|]. intros k3.
    auto with keeps. }
  intros kopts. apply keeps_bind; [auto with keeps|]. intros st.
  unfold setup_harness. apply keeps_bind; [auto with keeps|]. intros _.
  destruct (k3s_New E _ _) as [h|e]; auto with keeps.
  apply keeps_bind; [auto with keeps|]. intros _.
  apply keeps_bind; [auto with keeps|]. intros _.
  destruct (harness_Setup E h timeout); auto with keeps.
Qed.

Lemma keeps_Create (E : Extern) req : keeps_diagnostics (Create E req).
Proof.
  unfold Create. destruct (Plan_Get req) as [diags data].
  apply keeps_bind; [auto with keeps|]. intros _.
  apply keeps_bind; [auto with keeps|]. intros _.
  apply keeps_bind; [apply keeps_call_ShouldSkip|]. intros skipped.
  apply keeps_bind; [auto with keeps|]. intros _.
  destruct (ValueBool _).
  - apply keeps_bind; auto with keeps.
  - apply keeps_create_harness.
Qed.

(** X25. Create loses no diagnostic: whatever the response held when
    Create started is still there when it ends, and so is every
    diagnostic of the plan decoding, warnings included. When the harness
    is skipped, the response ends with the warning that names it. *)
Theorem Create_keeps_diagnostics (E : Extern) (store : ProviderStore)
    (req : CreateRequest) :
  (∀ w d, d ∈ resp_Diagnostics (w_resp w) →
          d ∈ resp_Diagnostics (w_resp (Create E req w).2))
  ∧ (∀ d, d ∈ (Plan_Get req).1 →
          d ∈ resp_Diagnostics (w_resp (run_Create E store req)))
  ∧ (w_trace (run_Create E store req) = [EvStateSet (planned_data req true)] →
     Diag SeverityWarning
       ("skipping harness [" +:+ (Plan_id req).2 +:+ "] creation")
       "given provider runtime labels do not match feature labels"
     ∈ resp_Diagnostics (w_resp (run_Create E store req))).
Proof.
  split; [apply keeps_Create|]. split.
  - intros d Hd. rewrite run_Create_head.
    assert (Hp : d ∈ resp_Diagnostics (planned_resp req)).
    { simpl. apply elem_of_Append. auto. }
    destruct (HasError (Plan_Get req).1); [done|]. cbv zeta.
    pose proof (ShouldSkip_keeps E store req (planned_resp req) d Hp) as Hsk.
    destruct (HasError (resp_Diagnostics (ShouldSkip _ _ _ _).2)); [done|].
    destruct (ShouldSkip E store req (planned_resp req)).1.
    + simpl. apply elem_of_Append. auto.
    + by apply keeps_create_harness.
  - rewrite run_Create_head.
    destruct (HasError (Plan_Get req).1); [done|]. cbv zeta.
    destruct (HasError (resp_Diagnostics (ShouldSkip _ _ _ _).2)); [done|].
    destruct (ShouldSkip E store req (planned_resp req)).1 eqn:Hsk.
    + intros _. simpl. apply elem_of_Append. left.
      revert Hsk. unfold ShouldSkip.
      destruct (Config_inventory req) as [dI inv]. destruct (HasError dI); [done|].
      destruct (Plan_id req) as [dP id]. destruct (HasError dP); [done|].
      destruct (GetFeatures _ _ _); [|done].
      case_bool_decide; [done|]. simpl. intros ->. simpl.
      apply elem_of_Append. right. by apply list_elem_of_singleton.
    + intros Ht. exfalso.
      destruct (create_harness_outcome E store req
                  (world_of store (ShouldSkip E store req (planned_resp req)).2))
        as [Ht' _ _ _ | Hsk' Ht' _ _ | kopts e id _ _ Ht' _ _ _
           | kopts h e id t _ _ _ Ht' _ _ _
           | kopts h id t data _ _ _ Ht' _ _];
        try done; try (by apply ShouldSkip_State);
        rewrite Ht' in Ht; try discriminate.
      congruence.
Qed.

Lemma Create_keeps_diagnostics_witness :
  let E := demo_E 0 in
  let store := demo_store {[ "env" := "prod" ]} [feature_of [("env", "dev")]] in
  let req := demo_req (demo_data TfNull TfNull TfNull) in
  Diag SeverityWarning "skipping harness [k3s-xs1] creation"
    "given provider runtime labels do not match feature labels"
  ∈ resp_Diagnostics (w_resp (run_Create E store req)).
Proof.
  intros E store req.
  apply (proj2 (proj2 (Create_keeps_diagnostics E store req))).
  vm_compute. reflexivity.
Defined.

(* ================================================================== *)
(** * The options of an assembly, exactly *)
(* ================================================================== *)

Lemma image_option_Next (E : Extern) data kopts w kopts' w' :
  image_option E data kopts w = (Next kopts', w') →
  kopts' = kopts ++ image_part E data ∧ w' = w
  ∧ image_accepted E (Image data).
Proof.
  unfold image_option, image_part, image_accepted.
  destruct (IsNull (Image data)); simpl.
  - intros [= <- <-]. rewrite app_nil_r. auto.
  - destruct (name_ParseReference E _) as [ref|e]; [|done].
    intros [= <- <-]. split; [done|]. split; [done|]. right. by eexists.
Qed.

Lemma sandbox_mounts_Next (E : Extern) mounts kopts w kopts' w' :
  sandbox_mounts E mounts kopts w = (Next kopts', w') →
  kopts' = kopts ++ ((fun m => bind_mount (resolved_source E m) m) <$> mounts)
  ∧ w' = w
  ∧ Forall (fun m => filepath_Abs E (ValueString (Mount_Source m))
                     = Ok (resolved_source E m)) mounts.
Proof.
  revert kopts. induction mounts as [|m rest IH]; intros kopts; simpl.
  - intros [= <- <-]. by rewrite app_nil_r.
  - unfold resolved_source at 1 3.
    destruct (filepath_Abs E (ValueString (Mount_Source m))) as [src|e] eqn:Habs;
      [|done].
    intros (-> & -> & Hall)%IH. split; [|split; [done|]].
    + unfold bind_mount at 2. by rewrite <- app_assoc.
    + constructor; [|done]. unfold resolved_source. by rewrite Habs.
Qed.

Lemma sandbox_body_Next (E : Extern) sandbox kopts w kopts' w' :
  sandbox_body E sandbox kopts w = (Next kopts', w') →
  kopts' = kopts
           ++ sandbox_image_part E sandbox
           ++ ((fun m => bind_mount (resolved_source E m) m)
                 <$> Sandbox_Mounts sandbox)
           ++ ((fun n => WithSandboxNetworks (ValueString (Network_Name n.2)))
                 <$> go_range E "sandbox.Networks" 0 (Sandbox_Networks sandbox))
           ++ [WithSandboxEnv (Map_ElementsAs E (Sandbox_Envs sandbox)).2]
  ∧ image_accepted E (Sandbox_Image sandbox)
  ∧ mounts_resolve E sandbox
  ∧ HasError (Map_ElementsAs E (Sandbox_Envs sandbox)).1 = false.
Proof.
  unfold sandbox_body. step_bind.
  destruct (sandbox_image_option E sandbox kopts w) as [[k1|] w1] eqn:Himg; [|done].
  assert (k1 = kopts ++ sandbox_image_part E sandbox ∧ w1 = w
          ∧ image_accepted E (Sandbox_Image sandbox)) as (-> & -> & Hacc).
  { revert Himg. unfold sandbox_image_option, sandbox_image_part, image_accepted.
    destruct (IsNull (Sandbox_Image sandbox)); simpl.
    - intros [= <- <-]. rewrite app_nil_r. auto.
    - destruct (name_ParseReference E _) as [ref|e]; [|done].
      intros [= <- <-]. split; [done|]. split; [done|]. right. by eexists. }
  step_bind.
  destruct (sandbox_mounts E (Sandbox_Mounts sandbox) _ w) as [[k2|] w2] eqn:Hmnt;
    [|done].
  apply sandbox_mounts_Next in Hmnt as (-> & -> & Hres).
  destruct (Map_ElementsAs E (Sandbox_Envs sandbox)) as [diags envs].
  destruct (HasError diags) eqn:Henv; [done|]. intros [= <- <-]. simpl.
  split; [by rewrite <- !app_assoc|]. done.
Qed.

Lemma sandbox_options_Next (E : Extern) data kopts w kopts' w' :
  sandbox_options E data kopts w = (Next kopts', w') →
  kopts' = kopts ++ sandbox_part E data
  ∧ (IsNull (Sandbox data) = false →
     image_accepted E (Sandbox_Image (Object_As E (Sandbox data)).2)
     ∧ mounts_resolve E (Object_As E (Sandbox data)).2
     ∧ HasError (Map_ElementsAs E
                   (Sandbox_Envs (Object_As E (Sandbox data)).2)).1 = false).
Proof.
  unfold sandbox_options, sandbox_part.
  destruct (IsNull (Sandbox data)); simpl.
  - intros [= <- <-]. by rewrite app_nil_r.
  - destruct (Object_As E (Sandbox data)) as [diags sandbox]. simpl.
    step_bind. simpl. step_bind.
    destruct (return_if_error _) as [[[]|] w1]; [|done].
    intros (-> & Hfacts)%sandbox_body_Next. by split.
Qed.

Lemma assemble_options_exact (E : Extern) data w1 kopts w2 :
  assemble_options E data w1 = (Next kopts, w2) →
  kopts = toggle_options data ++ image_part E data ++ sandbox_part E data
          ++ flat_map (registry_entry_options E)
               (go_range E "registries" 0
                  (merged_registries E (w_store w1) data))
          ++ [WithNetworks (assembled_networks E (w_store w1) data)]
  ∧ image_accepted E (Image data)
  ∧ (IsNull (Sandbox data) = false →
     image_accepted E (Sandbox_Image (Object_As E (Sandbox data)).2)
     ∧ mounts_resolve E (Object_As E (Sandbox data)).2
     ∧ HasError (Map_ElementsAs E
                   (Sandbox_Envs (Object_As E (Sandbox data)).2)).1 = false)
  ∧ Forall (mirror_converts E)
      (go_range E "registries" 0 (merged_registries E (w_store w1) data)).
Proof.
  unfold assemble_options. intros H. step_bind in H.
  destruct (image_option E data _ w1) as [[k1|] wa] eqn:Himg; [|done].
  apply image_option_Next in Himg as (-> & -> & Hacc).
  step_bind in H.
  pose proof (quiet_sandbox_options E data
                (toggle_options data ++ image_part E data) w1) as Hq2.
  destruct (sandbox_options E data _ w1) as [[k2|] wb] eqn:Hsb; [|done].
  simpl in Hq2. destruct Hq2 as (Hs2 & _).
  apply sandbox_options_Next in Hsb as (-> & Hsandbox).
  step_bind in H. simpl in H. step_bind in H. rewrite Hs2 in H.
  destruct (registry_options E _ _ wb) as [[k3|] wc] eqn:Hreg; [|done].
  apply registry_options_Next in Hreg as (-> & _ & Hall).
  simpl in H. injection H as <- <-.
  split; [by rewrite <- !app_assoc|]. done.
Qed.

Lemma image_part_no_auth (E : Extern) data :
  Forall (fun o => is_auth_option o = false) (image_part E data).
Proof.
  unfold image_part. destruct (IsNull (Image data)); [constructor|].
  destruct (name_ParseReference E _); repeat constructor.
Qed.

Lemma sandbox_part_no_auth (E : Extern) data :
  Forall (fun o => is_auth_option o = false) (sandbox_part E data).
Proof.
  unfold sandbox_part. destruct (IsNull (Sandbox data)); [constructor|].
  simpl. repeat (apply Forall_app; split).
  - unfold sandbox_image_part.
    destruct (IsNull _); [constructor|].
    destruct (name_ParseReference E _); repeat constructor.
  - apply Forall_fmap, Forall_forall. by intros m _.
  - apply Forall_fmap, Forall_forall. by intros n _.
  - repeat constructor.
Qed.

(** X11. The options Create hands to [k3s.New] are exactly, in this
    order: the three toggles (CNI, Traefik, metrics server, each as
    [ValueBool] reads the plan, so false when null or unknown); the
    harness image, if one is set; with a sandbox object, the sandbox
    image if set, one bind mount per declared mount, one option per
    sandbox network and the environment; for every merged registry, in
    the order visited, the option of its Auth block and then of its
    Mirror block; and last the networks. None of the image and sandbox
    options is a credential, and [k3s.New] is only reached with every
    image accepted, every mount source resolved and the environment
    converted. *)
Theorem options_handed_to_New (E : Extern) (store : ProviderStore)
    (req : CreateRequest) (id : string) (kopts : list k3s_Option) :
  EvNew id kopts ∈ w_trace (run_Create E store req) →
  let data := (Plan_Get req).2 in
  id = ValueString (Id data)
  ∧ kopts = [WithCniDisabled (ValueBool (DisableCni data));
             WithTraefikDisabled (ValueBool (DisableTraefik data));
             WithMetricsServerDisabled (ValueBool (DisableMetricsServer data))]
            ++ image_part E data
            ++ sandbox_part E data
            ++ flat_map (registry_entry_options E)
                 (go_range E "registries" 0 (merged_registries E store data))
            ++ [WithNetworks (assembled_networks E store data)]
  ∧ Forall (fun o => is_auth_option o = false)
      (image_part E data ++ sandbox_part E data)
  ∧ image_accepted E (Image data)
  ∧ (IsNull (Sandbox data) = false →
     image_accepted E (Sandbox_Image (Object_As E (Sandbox data)).2)
     ∧ mounts_resolve E (Object_As E (Sandbox data)).2
     ∧ HasError (Map_ElementsAs E
                   (Sandbox_Envs (Object_As E (Sandbox data)).2)).1 = false).
Proof.
  intros Hin data.
  apply Create_New_assembled in Hin as (-> & w1 & w2 & Hs & Hasm).
  split; [done|].
  apply assemble_options_exact in Hasm as (Hexact & Hacc & Hsandbox & _).
  rewrite Hs in *. split; [exact Hexact|]. split; [|done].
  apply Forall_app. split; [apply image_part_no_auth | apply sandbox_part_no_auth].
Qed.

(** With the image ["img"] and a sandbox mounting ["/a"], both reach
    [k3s.New]. *)
Lemma options_handed_to_New_witness :
  let E := demo_E 0 in
  let data := demo_data (TfKnown "img") (TfKnown (demo_sandbox TfNull ["/a"])) TfNull in
  image_part E data = [WithImageRef {| ref_name := "img" |}]
  ∧ demo_full_kopts
    = [WithCniDisabled false; WithTraefikDisabled true;
       WithMetricsServerDisabled true]
      ++ image_part E data
      ++ sandbox_part E data
      ++ flat_map (registry_entry_options E)
           (go_range E "registries" 0
              (merged_registries E (demo_store ∅ []) data))
      ++ [WithNetworks ["n1"; "n1"; "n2"]].
Proof.
  intros E data. split; [reflexivity|].
  destruct (options_handed_to_New E (demo_store ∅ []) (demo_req data) demo_id
              demo_full_kopts) as (_ & Heq & _).
  - vm_compute. apply list_elem_of_here.
  - exact Heq.
Defined.

(* ================================================================== *)
(** * An error from the timeout resolution, as the code has it *)
(* ================================================================== *)

Lemma keeps_assemble_options (E : Extern) data :
  keeps_diagnostics (assemble_options E data).
Proof.
  unfold assemble_options.
  apply keeps_bind; [apply keeps_image_option|]. intros k1.
  apply keeps_bind; [apply keeps_sandbox_options|]. intros k2.
  apply keeps_bind; [auto with keeps|]. intros st.
  apply keeps_bind; [apply keeps_registry_options|]. intros k3.
  auto with keeps.
Qed.

Lemma keeps_setup_harness (E : Extern) data timeout kopts :
  keeps_diagnostics (setup_harness E data timeout kopts).
Proof.
  unfold setup_harness. apply keeps_bind; [auto with keeps|]. intros _.
  destruct (k3s_New E _ _) as [h|e]; auto with keeps.
  apply keeps_bind; [auto with keeps|]. intros _.
  apply keeps_bind; [auto with keeps|]. intros _.
  destruct (harness_Setup E h timeout); auto with keeps.
Qed.

(** Without a sandbox object, the assembly goes through as soon as the
    harness image is accepted and every Mirror block converts. *)
Lemma assemble_options_without_sandbox (E : Extern) data w :
  IsNull (Sandbox data) = true →
  image_accepted E (Image data) →
  Forall (mirror_converts E)
    (go_range E "registries" 0 (merged_registries E (w_store w) data)) →
  ∃ kopts, assemble_options E data w = (Next kopts, w).
Proof.
  intros Hnull Himage Hmirrors. unfold assemble_options.
  destruct (image_option_accepted E data (toggle_options data) w Himage)
    as (k1 & Himg).
  rewrite (bind_Next _ _ _ _ _ Himg).
  unfold sandbox_options. rewrite Hnull. simpl.
  step_bind. simpl. step_bind. simpl.
  rewrite (bind_Next _ _ _ _ _ (registry_options_converts E _ k1 w Hmirrors)).
  by eexists.
Qed.

(** C10, as the code has it. When the timeout resolution reports an
    error, Create does not return there: the diagnostics are appended,
    they stay in the response, and the assembly of the options starts.
    Without a sandbox object, once the harness image is accepted and
    every Mirror block of the registries converts, [k3s.New] is called,
    and when it answers a handle, the handle is registered and set up
    under the resolved timeout. With a sandbox object, the check after
    decoding it (line 247) sees the error already reported and Create
    returns, whatever the collaborators answer: nothing is constructed,
    registered, set up or persisted. *)
Theorem timeout_error_stops_only_at_sandbox (E : Extern) (store : ProviderStore)
    (req : CreateRequest) (resp1 : CreateResponse) :
  HasError (Plan_Get req).1 = false →
  ShouldSkip E store req (planned_resp req) = (false, resp1) →
  HasError (resp_Diagnostics resp1) = false →
  HasError (Timeouts_Create E (Timeouts (Plan_Get req).2)
              defaultHarnessK3sCreateTimeout).2 = true →
  let w := run_Create E store req in
  let data := (Plan_Get req).2 in
  let id := ValueString (Id data) in
  (∀ d, d ∈ (Timeouts_Create E (Timeouts data) defaultHarnessK3sCreateTimeout).2 →
        d ∈ resp_Diagnostics (w_resp w))
  ∧ (IsNull (Sandbox data) = true →
     image_accepted E (Image data) →
     Forall (mirror_converts E)
       (go_range E "registries" 0 (merged_registries E store data)) →
     ∃ kopts,
       EvNew id kopts ∈ w_trace w
       ∧ (∀ h, k3s_New E id kopts = Ok h →
               (∃ rest, w_trace w = [EvNew id kopts; EvRegistrySet id h;
                                     EvSetup h (create_timeout E req)] ++ rest)
               ∧ harnesses (w_store w) !! id = Some h))
  ∧ (IsNull (Sandbox data) = false →
     w_trace w = [] ∧ w_store w = store ∧ State (w_resp w) = None).
Proof.
  intros H0 Hsk H1 HT w data id.
  destruct (run_Create_not_skipped E store req resp1 H0 Hsk H1) as [Hrun Hst].
  subst w. rewrite Hrun, create_harness_assemble.
  set (pdata := planned_data req false).
  set (w1 := timed_world E pdata (world_of store resp1)).
  assert (Hw1 : ∀ d, d ∈ (Timeouts_Create E (Timeouts data)
                            defaultHarnessK3sCreateTimeout).2 →
                     d ∈ resp_Diagnostics (w_resp w1)).
  { intros d Hd. simpl. apply elem_of_Append. auto. }
  assert (Herr1 : HasError (resp_Diagnostics (w_resp w1)) = true).
  { apply HasError_elem_of in HT as (d & Hd & He).
    apply HasError_elem_of. exists d. split; [by apply Hw1|done]. }
  assert (Hid : ∀ st, ValueString (Id (aliased_data E st pdata)) = id).
  { intros st. unfold pdata. by rewrite Id_aliased_data. }
  split; [|split].
  - intros d Hd. apply Hw1 in Hd.
    pose proof (keeps_assemble_options E pdata w1 d Hd) as Hk.
    destruct (assemble_options E pdata w1) as [[kopts|] w2]; [|done].
    by apply keeps_setup_harness.
  - intros Hnull Himage Hmirrors.
    destruct (assemble_options_without_sandbox E pdata w1 Hnull Himage Hmirrors)
      as (kopts & Hasm).
    rewrite Hasm. exists kopts.
    change (Timeouts_Create E (Timeouts pdata) defaultHarnessK3sCreateTimeout).1
      with (create_timeout E req).
    split.
    + unfold setup_harness, mbind, M_bind, emit, registry_set, add_error, on_resp,
        return_, state_set. simpl. rewrite Hid.
      destruct (k3s_New E id kopts) as [h|e]; simpl;
        [destruct (harness_Setup E h _); simpl|]; apply list_elem_of_here.
    + intros h Hh. rewrite <- (Hid (w_store w1)) in Hh.
      destruct (setup_harness_runs E _ (create_timeout E req) kopts w1 h Hh)
        as (Htr & Hreg & _).
      rewrite (Hid (w_store w1)) in *. done.
  - intros Hnull.
    assert (Hret : ∃ w2, assemble_options E pdata w1 = (Returned, w2)).
    { unfold assemble_options. step_bind.
      destruct (image_option E pdata (toggle_options pdata) w1) as [[k1|] wa]
        eqn:Himg; [|by eexists].
      apply image_option_Next in Himg as (_ & -> & _).
      rewrite (bind_Returned _ _ _ _
                 (sandbox_options_accumulated_error E pdata _ w1 Hnull Herr1)).
      by eexists. }
    destruct Hret as (w2 & Hret).
    pose proof (quiet_assemble_options E pdata w1) as Hq.
    rewrite Hret in *. simpl in Hq. destruct Hq as (Hs & Ht & Hst2 & _).
    simpl. by rewrite Hs, Ht, Hst2.
Qed.

(** A create timeout that does not parse, first without and then with a
    sandbox object. *)
Lemma timeout_error_stops_only_at_sandbox_witness :
  let E := demo_E 0 in
  let store := demo_store ∅ [] in
  let plain := demo_req (demo_data TfNull TfNull (TfKnown "5x")) in
  let sandboxed :=
    demo_req (demo_data TfNull (TfKnown (demo_sandbox TfNull [])) (TfKnown "5x")) in
  (∃ kopts,
     EvNew demo_id kopts ∈ w_trace (run_Create E store plain)
     ∧ (∀ h, k3s_New E demo_id kopts = Ok h →
             (∃ rest, w_trace (run_Create E store plain)
                      = [EvNew demo_id kopts; EvRegistrySet demo_id h;
                         EvSetup h defaultHarnessK3sCreateTimeout] ++ rest)
             ∧ harnesses (w_store (run_Create E store plain)) !! demo_id = Some h))
  ∧ w_trace (run_Create E store sandboxed) = []
  ∧ w_store (run_Create E store sandboxed) = store
  ∧ State (w_resp (run_Create E store sandboxed)) = None.
Proof.
  intros E store plain sandboxed. split.
  - destruct (timeout_error_stops_only_at_sandbox E store plain fresh_resp)
      as (_ & H & _); [reflexivity..|].
    apply H; [reflexivity | left; reflexivity |].
    apply Forall_forall. intros [rname rdata] Hin mirror Hm.
    apply list_elem_of_In in Hin. vm_compute in Hin.
    destruct Hin as [[= <- <-]|[[= <- <-]|[]]]; discriminate.
  - destruct (timeout_error_stops_only_at_sandbox E store sandboxed fresh_resp)
      as (_ & _ & H); [reflexivity..|].
    exact (H eq_refl).
Defined.
